(** * Panasonic TV web app: focus engine and platform accessors

    A shallow embedding of [js/remote-control.js], [js/firefox-os-api.js]
    and [js/panasonic-api.js], followed by the properties of the
    navigation engine and of the negotiated accessor surface.

    JavaScript numbers that hold indices and key codes are integers here
    ([Z]); arrays are lists read with stdpp's lookup; DOM elements that the
    code only passes around are identified by a number. *)

From Stdlib Require Import ZArith Lia.
From stdpp Require Import base option list strings gmap.

Local Open Scope Z_scope.

(** ** Shared vocabulary *)

(** Identity of a DOM element that can take input focus or be clicked. *)
Definition ElemId := nat.

(** [arr[i]] for a numeric [i]: [undefined] outside [0 .. length-1]. *)
Definition js_index {A : Type} (arr : list A) (i : Z) : option A :=
  if decide (0 <= i) then arr !! Z.to_nat i else None.

(** [arr.length] as a number. *)
Definition js_length {A : Type} (arr : list A) : Z := Z.of_nat (length arr).

(** A keyboard event as the handlers use it: the code, and whether
    [preventDefault()] has been called on it. *)
Record KeyEvent := mkKeyEvent {
  keyCode : Z;
  defaultPrevented : bool
}.

Definition preventDefault (ev : KeyEvent) : KeyEvent :=
  {| keyCode := keyCode ev; defaultPrevented := true |}.

Definition keydown (code : Z) : KeyEvent :=
  {| keyCode := code; defaultPrevented := false |}.

(** ** js/remote-control.js: class RemoteControlHandler *)

Module Remote.

(** A [.nav-item] element: whether its class list holds ['active'], and the
    [.nav-button] inside it, if [querySelector] finds one. *)
Record NavItem := mkNavItem {
  classActive : bool;
  navButton : option ElemId
}.

(** What the handler does to the outside world besides the focus marker. *)
Inductive Effect :=
  | Click (e : ElemId)
  | NavigationSound
  | SelectionSound.

(** The handler's fields, with the part of the document it reads and
    writes: the element holding input focus and the [#home-btn] element. *)
Record State := mkState {
  currentFocus : Z;
  navItems : list NavItem;
  isNavigating : bool;
  activeElement : option ElemId;
  homeBtn : option ElemId;
  effects : list Effect
}.

Definition with_focus (i : Z) (items : list NavItem)
    (act : option ElemId) (h : State) : State :=
  {| currentFocus := i; navItems := items; isNavigating := isNavigating h;
     activeElement := act; homeBtn := homeBtn h; effects := effects h |}.

Definition with_navItems (items : list NavItem) (h : State) : State :=
  with_focus (currentFocus h) items (activeElement h) h.

Definition with_isNavigating (b : bool) (h : State) : State :=
  {| currentFocus := currentFocus h; navItems := navItems h; isNavigating := b;
     activeElement := activeElement h; homeBtn := homeBtn h;
     effects := effects h |}.

Definition emit (e : Effect) (h : State) : State :=
  {| currentFocus := currentFocus h; navItems := navItems h;
     isNavigating := isNavigating h; activeElement := activeElement h;
     homeBtn := homeBtn h; effects := effects h ++ [e] |}.

(** [element.blur()] and [element.focus()] on the document's focus. *)
Definition blur (e : ElemId) (act : option ElemId) : option ElemId :=
  if decide (act = Some e) then None else act.

Definition focus (e : ElemId) (act : option ElemId) : option ElemId := Some e.

(** Body of the [forEach] of [setFocus], on one item. *)
Definition unmark (it : NavItem) : NavItem :=
  {| classActive := false; navButton := navButton it |}.

Definition blurButton (act : option ElemId) (it : NavItem) : option ElemId :=
  match navButton it with
  | Some b => blur b act
  | None => act
  end.

Definition mark (it : NavItem) : NavItem :=
  {| classActive := true; navButton := navButton it |}.

(** [updateNavItems()]: [found] is what [querySelectorAll('.nav-item')]
    returns at the time of the call. *)
Definition updateNavItems (found : list NavItem) (h : State) : State :=
  with_navItems found h.

(** [setFocus(index)] *)
Definition setFocus (index : Z) (h : State) : State :=
  let items := unmark <$> navItems h in
  let act := foldl blurButton (activeElement h) (navItems h) in
  if decide (index >= 0 /\ index < js_length (navItems h)) then
    let act' :=
      match js_index items index ≫= navButton with
      | Some b => focus b act
      | None => act
      end in
    with_focus index (alter mark (Z.to_nat index) items) act' h
  else
    with_focus (currentFocus h) items act h.

(** [setInitialFocus()] *)
Definition setInitialFocus (h : State) : State :=
  if decide (js_length (navItems h) > 0) then setFocus 0 h else h.

(** The two sound helpers swallow every error of the audio API and touch no
    field of the handler. *)
Definition playNavigationSound (h : State) : State := emit NavigationSound h.
Definition playSelectionSound (h : State) : State := emit SelectionSound h.

(** [navigateLeft()] *)
Definition navigateLeft (h : State) : State :=
  playNavigationSound
    (if decide (currentFocus h > 0)
     then setFocus (currentFocus h - 1) h
     else setFocus (js_length (navItems h) - 1) h).

(** [navigateRight()] *)
Definition navigateRight (h : State) : State :=
  playNavigationSound
    (if decide (currentFocus h < js_length (navItems h) - 1)
     then setFocus (currentFocus h + 1) h
     else setFocus 0 h).

(** [navigateUp()] and [navigateDown()] only write to the console. *)
Definition navigateUp (h : State) : State := h.
Definition navigateDown (h : State) : State := h.

(** [activateCurrentItem()] *)
Definition activateCurrentItem (h : State) : State :=
  match js_index (navItems h) (currentFocus h) with
  | Some currentItem =>
      match navButton currentItem with
      | Some button => emit (Click button) (playSelectionSound h)
      | None => h
      end
  | None => h
  end.

(** [handleBackNavigation()] *)
Definition handleBackNavigation (h : State) : State :=
  match homeBtn h with
  | Some homeButton => setFocus 0 (emit (Click homeButton) h)
  | None => h
  end.

(** [handleKeyPress(event)] *)
Definition navigationKeys : list Z := [37; 38; 39; 40; 13; 32].

Definition handleKeyPress (event : KeyEvent) (h : State) : KeyEvent * State :=
  let '(event, h) :=
    if bool_decide (keyCode event ∈ navigationKeys)
    then (preventDefault event, with_isNavigating true h)
    else (event, h) in
  let code := keyCode event in
  (event,
   if code =? 37 then navigateLeft h
   else if code =? 38 then navigateUp h
   else if code =? 39 then navigateRight h
   else if code =? 40 then navigateDown h
   else if (code =? 13) || (code =? 32) then activateCurrentItem h
   else if code =? 27 then handleBackNavigation h
   else with_isNavigating false h).

(** [reset()] *)
Definition reset (found : list NavItem) (h : State) : State :=
  with_isNavigating false (setInitialFocus (updateNavItems found h)).

(** [init()], run by the constructor on the fresh fields; the two listeners
    it installs are [handleKeyPress] and [handleBackNavigation]. *)
Definition init (found : list NavItem) (h : State) : State :=
  setInitialFocus (updateNavItems found h).

Definition construct (found : list NavItem)
    (act home : option ElemId) : State :=
  init found
    {| currentFocus := 0; navItems := []; isNavigating := false;
       activeElement := act; homeBtn := home; effects := [] |}.

(** [getNavigationState()] *)
Record NavigationState := mkNavigationState {
  ns_currentFocus : Z;
  ns_totalItems : Z;
  ns_isNavigating : bool
}.

Definition getNavigationState (h : State) : NavigationState :=
  {| ns_currentFocus := currentFocus h;
     ns_totalItems := js_length (navItems h);
     ns_isNavigating := isNavigating h |}.

(** *** Content navigation

    [enableContentNavigation(contentElement)] closes over the focusable
    elements it found and over [contentFocus]; the listener it installs on
    the content element is [contentKeyDown]. *)
Record ContentScope := mkContentScope {
  focusableElements : list ElemId;
  contentFocus : Z
}.

Inductive Direction := DirUp | DirDown.

(** [navigateContent(direction)]; [None] is the TypeError of calling
    [blur] or [focus] on [undefined]. *)
Definition navigateContent (direction : Direction)
    (c : ContentScope) (h : State) : option (ContentScope * State) :=
  old ← js_index (focusableElements c) (contentFocus c);
  let act := blur old (activeElement h) in
  let contentFocus' :=
    match direction with
    | DirUp => Z.max 0 (contentFocus c - 1)
    | DirDown =>
        Z.min (js_length (focusableElements c) - 1) (contentFocus c + 1)
    end in
  new ← js_index (focusableElements c) contentFocus';
  Some ({| focusableElements := focusableElements c;
           contentFocus := contentFocus' |},
        with_focus (currentFocus h) (navItems h) (focus new act) h).

(** [contentElement] is [None] for a missing element, else the result of
    its [querySelectorAll]. The result is the installed scope, if any. *)
Definition enableContentNavigation (contentElement : option (list ElemId))
    (h : State) : option ContentScope * State :=
  match contentElement with
  | None => (None, h)
  | Some [] => (None, h)
  | Some (first :: rest) =>
      (Some {| focusableElements := first :: rest; contentFocus := 0 |},
       with_focus (currentFocus h) (navItems h)
         (focus first (activeElement h)) h)
  end.

(** The [keydown] listener of the content element. *)
Definition contentKeyDown (event : KeyEvent) (c : ContentScope) (h : State)
    : option (KeyEvent * ContentScope * State) :=
  let code := keyCode event in
  if code =? 38 then
    '(c', h') ← navigateContent DirUp c h;
    Some (preventDefault event, c', h')
  else if code =? 40 then
    '(c', h') ← navigateContent DirDown c h;
    Some (preventDefault event, c', h')
  else if (code =? 37) || (code =? 39) then
    Some (preventDefault event, c, setFocus (currentFocus h) h)
  else Some (event, c, h).

(** [disableContentNavigation(contentElement)] *)
Definition disableContentNavigation (contentElement : option (list ElemId))
    (h : State) : State :=
  match contentElement with
  | None => h
  | Some els =>
      with_focus (currentFocus h) (navItems h)
        (foldl (fun act e => blur e act) (activeElement h) els) h
  end.

End Remote.

(** ** Asynchronous vocabulary of the two platform files *)

Definition Error := string.

(** The JavaScript values that settings hold. *)
Inductive JSValue :=
  | VUndefined
  | VNull
  | VBool (b : bool)
  | VNum (n : Z)
  | VStr (s : string).

Definition truthy (v : JSValue) : bool :=
  match v with
  | VUndefined | VNull => false
  | VBool b => b
  | VNum n => negb (n =? 0)
  | VStr EmptyString => false
  | VStr _ => true
  end.

(** [a || b] on values. *)
Definition js_or (a b : JSValue) : JSValue := if truthy a then a else b.

(** How a promise ends: resolved, rejected, or never settled. *)
Inductive Promise (A : Type) :=
  | Resolved (a : A)
  | Rejected (e : Error)
  | Pending.
Arguments Resolved {A} a.
Arguments Rejected {A} e.
Arguments Pending {A}.

(** A synchronous call into the platform: it throws or returns. *)
Inductive Call (A : Type) :=
  | Throws (e : Error)
  | Returns (a : A).
Arguments Throws {A} e.
Arguments Returns {A} a.

(** What a DOMRequest later fires: [onsuccess] with [request.result],
    [onerror] with [request.error], or nothing at all. *)
Inductive Signal (A : Type) :=
  | OnSuccess (result : A)
  | OnError (e : Error)
  | Silent.
Arguments OnSuccess {A} result.
Arguments OnError {A} e.
Arguments Silent {A}.

(** [new Promise((resolve, reject) => { request.onsuccess = ...;
    request.onerror = () => reject(request.error) })]: the promise follows
    the success handler, which resolves or leaves the promise as it is.
    The provider call is taken to have returned a request object; had it
    returned [undefined], the first assignment would throw inside the
    executor and the promise would be rejected with that TypeError. *)
Definition promise_of_request {A B : Type}
    (request : Signal A) (onsuccess : A -> Promise B) : Promise B :=
  match request with
  | OnSuccess result => onsuccess result
  | OnError e => Rejected e
  | Silent => Pending
  end.

(** ** js/firefox-os-api.js: class FirefoxOSAPI *)

Module FirefoxOS.

Definition FileHandle := string.

(** One firing of an enumeration cursor, in answer to [enumerate] or to a
    [continue()]: a file, the end ([request.result] is null), or an error. *)
Inductive CursorStep :=
  | Item (file : FileHandle)
  | Done
  | Failed (e : Error).

Record DeviceStorage := mkDeviceStorage {
  enumerate : string -> Call (list CursorStep)
}.

(** [navigator.mozSettings]: [createLock().get(key)] and
    [createLock().set(setting)]. *)
Record SettingsProvider := mkSettingsProvider {
  lock_get : string -> Call (Signal (gmap string JSValue));
  lock_set : string -> JSValue -> Call (Signal ())
}.

(** An installed app: its origin, and what [launch()] does: it throws, or
    returns a request with its own later signal. *)
Record App := mkApp {
  origin : string;
  launch : Call (Signal ())
}.

Record AppsProvider := mkAppsProvider {
  getInstalled : Call (Signal (list App))
}.

(** The parts of [navigator] and [window] the class looks at. *)
Record Navigator := mkNavigator {
  mozApps : option AppsProvider;
  mozSettings : option SettingsProvider;
  mozPower : bool;
  mozBattery : bool;
  getDeviceStorage : option (string -> Call (option DeviceStorage));
  mozSetMessageHandler : bool;
  uaMobileRv : bool;
  uaFirefox : bool
}.

Record Capabilities := mkCapabilities {
  apps : bool;
  settings : bool;
  power : bool;
  battery : bool;
  deviceStorage : bool;
  activities : bool
}.

(** The fields of a [FirefoxOSAPI] object. *)
Record API := mkAPI {
  isFirefoxOS : bool;
  capabilities : Capabilities;
  this_settings : option SettingsProvider;
  videoStorage : option DeviceStorage;
  musicStorage : option DeviceStorage;
  pictureStorage : option DeviceStorage
}.

(** [detectFirefoxOS()] *)
Definition detectFirefoxOS (nav : Navigator) : bool :=
  bool_decide (is_Some (mozApps nav)) || bool_decide (is_Some (mozSettings nav))
  || mozPower nav || uaMobileRv nav || uaFirefox nav.

(** [getFirefoxOSCapabilities()] *)
Definition getFirefoxOSCapabilities (nav : Navigator) : Capabilities :=
  {| apps := bool_decide (is_Some (mozApps nav));
     settings := bool_decide (is_Some (mozSettings nav));
     power := mozPower nav;
     battery := mozBattery nav;
     deviceStorage := bool_decide (is_Some (getDeviceStorage nav));
     activities := mozSetMessageHandler nav |}.

(** [initDeviceStorage()]: the three lookups run in order inside one
    [try]; the first that throws leaves the later fields unset. *)
Definition initDeviceStorage (nav : Navigator) (a : API) : API :=
  match getDeviceStorage nav with
  | None => a
  | Some get =>
      match get "videos" with
      | Throws _ => a
      | Returns v =>
          match get "music" with
          | Throws _ =>
              mkAPI (isFirefoxOS a) (capabilities a) (this_settings a)
                v (musicStorage a) (pictureStorage a)
          | Returns m =>
              match get "pictures" with
              | Throws _ =>
                  mkAPI (isFirefoxOS a) (capabilities a) (this_settings a)
                    v m (pictureStorage a)
              | Returns p =>
                  mkAPI (isFirefoxOS a) (capabilities a) (this_settings a)
                    v m p
              end
          end
      end
  end.

(** [initSystemSettings()] *)
Definition initSystemSettings (nav : Navigator) (a : API) : API :=
  mkAPI (isFirefoxOS a) (capabilities a) (mozSettings nav)
    (videoStorage a) (musicStorage a) (pictureStorage a).

(** [initFirefoxOSFeatures()], restricted to the fields kept here. *)
Definition initFirefoxOSFeatures (nav : Navigator) (a : API) : API :=
  let a := if deviceStorage (capabilities a)
           then initDeviceStorage nav a else a in
  if settings (capabilities a) then initSystemSettings nav a else a.

(** The constructor followed by [init()]. *)
Definition construct (nav : Navigator) : API :=
  let a := {| isFirefoxOS := detectFirefoxOS nav;
              capabilities := getFirefoxOSCapabilities nav;
              this_settings := None; videoStorage := None;
              musicStorage := None; pictureStorage := None |} in
  if isFirefoxOS a then initFirefoxOSFeatures nav a else a.

(** [request.result[key]] *)
Definition result_at (result : gmap string JSValue) (key : string) : JSValue :=
  default VUndefined (result !! key).

(** [getSystemSetting(key)] *)
Definition getSystemSetting (a : API) (key : string) : Promise JSValue :=
  match this_settings a with
  | None => Resolved VNull
  | Some provider =>
      match lock_get provider key with
      | Returns request =>
          promise_of_request request
            (fun result => Resolved (result_at result key))
      | Throws error => Resolved VNull
      end
  end.

(** [setSystemSetting(key, value)] *)
Definition setSystemSetting (a : API) (key : string) (value : JSValue)
    : Promise bool :=
  match this_settings a with
  | None => Resolved false
  | Some provider =>
      match lock_set provider key value with
      | Returns request =>
          promise_of_request request (fun _ => Resolved true)
      | Throws error => Resolved false
      end
  end.

(** The [onsuccess] handler of [getStorageFiles], run once per firing of
    the cursor: it pushes a file and asks for the next firing, or resolves
    with the files collected so far. A cursor that stops firing leaves the
    promise unsettled. *)
Fixpoint drain (files : list FileHandle) (cursor : list CursorStep)
    : Promise (list FileHandle) :=
  match cursor with
  | [] => Pending
  | Item file :: rest => drain (files ++ [file]) rest
  | Done :: _ => Resolved files
  | Failed e :: _ => Rejected e
  end.

(** The [switch] of [getStorageFiles]: [None] is its [default] branch. *)
Definition select_storage (a : API) (storageType : string)
    : option (option DeviceStorage) :=
  if decide (storageType = "videos") then Some (videoStorage a)
  else if decide (storageType = "music") then Some (musicStorage a)
  else if decide (storageType = "pictures") then Some (pictureStorage a)
  else None.

(** [getStorageFiles(storageType, path)] *)
Definition getStorageFiles (a : API) (storageType path : string)
    : Promise (list FileHandle) :=
  match select_storage a storageType with
  | None => Resolved []
  | Some None => Resolved []
  | Some (Some storage) =>
      match enumerate storage path with
      | Returns cursor => drain [] cursor
      | Throws error => Resolved []
      end
  end.

(** [apps.find(app => app.origin === appOrigin)] *)
Definition find_app (installed : list App) (appOrigin : string) : option App :=
  snd <$> list_find (fun app => origin app = appOrigin) installed.

(** The [onsuccess] handler of [launchApp]; a throwing [launch()] ends the
    handler before [resolve] is reached. *)
Definition launch_found (installed : list App) (appOrigin : string)
    : Promise bool :=
  match find_app installed appOrigin with
  | Some targetApp =>
      match launch targetApp with
      | Returns _ => Resolved true
      | Throws _ => Pending
      end
  | None => Resolved false
  end.

(** [launchApp(appOrigin)]; with [navigator.mozApps] gone, reading
    [getInstalled] throws inside the [try]. *)
Definition launchApp (nav : Navigator) (a : API) (appOrigin : string)
    : Promise bool :=
  if negb (apps (capabilities a)) then Resolved false
  else
    match mozApps nav with
    | None => Resolved false
    | Some provider =>
        match getInstalled provider with
        | Returns request =>
            promise_of_request request
              (fun installed => launch_found installed appOrigin)
        | Throws error => Resolved false
        end
    end.

End FirefoxOS.

(** ** js/panasonic-api.js: class PanasonicTVAPI *)

Module Panasonic.

Record SystemInfo := mkSystemInfo {
  model : JSValue;
  version : JSValue;
  platform : string;
  firefoxOS : bool   (* the field is present, and true, only when set *)
}.

(** [window.panasonic]: its [system.getInfo()], when [system] exists. *)
Record Native := mkNative {
  system_getInfo : option (Call SystemInfo)
}.

(** The parts of [window] that the class reads. *)
Record Window := mkWindow {
  panasonic : option Native;
  firefoxOSAPI : option FirefoxOS.API;
  hasHTMLVideoElement : bool;
  hasClose : bool
}.

Record Capabilities := mkCapabilities {
  remoteControl : bool;
  networkInfo : bool;
  systemInfo : bool;
  mediaPlayer : bool;
  fileSystem : bool;
  cap_firefoxOS : bool
}.

(** [getCapabilities()]: later assignments only ever set a flag. *)
Definition getCapabilities (w : Window) (nav : FirefoxOS.Navigator)
    : Capabilities :=
  let native := bool_decide (is_Some (panasonic w)) in
  let apps := bool_decide (is_Some (FirefoxOS.mozApps nav)) in
  let storage := bool_decide (is_Some (FirefoxOS.getDeviceStorage nav)) in
  let settings := bool_decide (is_Some (FirefoxOS.mozSettings nav)) in
  {| remoteControl := true;
     networkInfo := native || settings;
     systemInfo := native || apps || settings;
     mediaPlayer := hasHTMLVideoElement w;
     fileSystem := storage;
     cap_firefoxOS := apps |}.

(** [this.tvKeyCodes], as [setupTVKeyHandling()] assigns it. *)
Record TvKeyCodes := mkTvKeyCodes {
  RED : Z; GREEN : Z; YELLOW : Z; BLUE : Z;
  BACK : Z; MENU : Z; INFO : Z; EXIT : Z
}.

Definition tvKeyCodes : TvKeyCodes :=
  {| RED := 403; GREEN := 404; YELLOW := 405; BLUE := 406;
     BACK := 461; MENU := 457; INFO := 457; EXIT := 27 |}.

(** What the vendor keys do besides suppressing the default. *)
Inductive TvEffect :=
  | ButtonLogged (name : string)
  | ConfirmExit
  | WindowClose
  | LocationBlank.

(** [handleExitButton()]; [confirmed] is the user's answer to [confirm]. *)
Definition handleExitButton (isTV : bool) (w : Window) (confirmed : bool)
    : list TvEffect :=
  ConfirmExit ::
  (if confirmed
   then if isTV && hasClose w then [WindowClose] else [LocationBlank]
   else []).

(** [handleBackButton()] dispatches [tvBackButton]; [dispatchEvent] runs the
    remote-control handler's listener before it returns. *)
Definition handleBackButton (h : Remote.State) : Remote.State :=
  Remote.handleBackNavigation h.

(** [handleTVKeys(event)], with the key table already assigned. *)
Definition handleTVKeys (codes : TvKeyCodes) (isTV : bool) (w : Window)
    (confirmed : bool) (event : KeyEvent) (h : Remote.State)
    : KeyEvent * Remote.State * list TvEffect :=
  let code := keyCode event in
  if code =? RED codes then
    (preventDefault event, h, [ButtonLogged "Red"])
  else if code =? GREEN codes then
    (preventDefault event, h, [ButtonLogged "Green"])
  else if code =? YELLOW codes then
    (preventDefault event, h, [ButtonLogged "Yellow"])
  else if code =? BLUE codes then
    (preventDefault event, h, [ButtonLogged "Blue"])
  else if code =? BACK codes then
    (preventDefault event, handleBackButton h, [ButtonLogged "Back"])
  else if code =? MENU codes then
    (preventDefault event, h, [ButtonLogged "Menu"])
  else if code =? EXIT codes then
    (preventDefault event, h,
     ButtonLogged "Exit" :: handleExitButton isTV w confirmed)
  else (event, h, []).

(** [getFirefoxOSSystemInfo()]: an async function; each [await] of a
    rejected promise lands in its [catch]. *)
Definition getFirefoxOSSystemInfo (w : Window) : Promise (option SystemInfo) :=
  match firefoxOSAPI w with
  | None => Resolved None
  | Some api =>
      match FirefoxOS.getSystemSetting api "deviceinfo.hardware" with
      | Rejected error => Resolved None
      | Pending => Pending
      | Resolved deviceInfo =>
          match FirefoxOS.getSystemSetting api "deviceinfo.os" with
          | Rejected error => Resolved None
          | Pending => Pending
          | Resolved osInfo =>
              Resolved (Some
                {| model := js_or deviceInfo (VStr "Panasonic TV");
                   version := js_or osInfo (VStr "1.0");
                   platform := "Panasonic TV (Firefox OS)";
                   firefoxOS := true |})
          end
      end
  end.

(** What [getSystemInfo()] hands to its caller: a record, or the promise
    that [getFirefoxOSSystemInfo()] returned. *)
Inductive InfoResult :=
  | InfoRecord (info : SystemInfo)
  | InfoPromise (p : Promise (option SystemInfo)).

Definition fallbackInfo : SystemInfo :=
  {| model := VStr "Unknown Panasonic TV";
     version := VStr "1.0";
     platform := "Panasonic TV (Firefox OS-based)";
     firefoxOS := false |}.

(** [getSystemInfo()] *)
Definition getSystemInfo (w : Window) (nav : FirefoxOS.Navigator)
    : InfoResult :=
  match panasonic w ≫= system_getInfo with
  | Some (Returns info) => InfoRecord info
  | Some (Throws error) => InfoRecord fallbackInfo
  | None =>
      if bool_decide (is_Some (FirefoxOS.mozApps nav))
         && bool_decide (is_Some (firefoxOSAPI w))
      then InfoPromise (getFirefoxOSSystemInfo w)
      else InfoRecord fallbackInfo
  end.

(** How [loadAboutContent] of [js/app.js] reads the result, without
    awaiting it: [systemInfo.model] of a promise is [undefined]. *)
Definition displayed_model (r : InfoResult) : JSValue :=
  match r with
  | InfoRecord info => model info
  | InfoPromise _ => VUndefined
  end.

End Panasonic.

(** ** The keydown listeners of the document

    The remote-control handler always listens. The vendor-key listener is
    installed by [setupTVKeyHandling()], which runs only in a detected TV
    environment; in browser mode no listener for vendor keys exists. The
    flag on the event is the same whichever listener runs first. *)
Definition route (isTV : bool) (w : Panasonic.Window) (confirmed : bool)
    (event : KeyEvent) (h : Remote.State)
    : KeyEvent * Remote.State * list Panasonic.TvEffect :=
  let '(event, h) := Remote.handleKeyPress event h in
  if isTV
  then Panasonic.handleTVKeys Panasonic.tvKeyCodes isTV w confirmed event h
  else (event, h, []).

(** The codes that some installed listener acts on. *)
Definition recognizedByRemote (code : Z) : bool :=
  bool_decide (code ∈ [37; 38; 39; 40; 13; 32; 27]).

Definition recognizedByTV (code : Z) : bool :=
  bool_decide (code ∈ [403; 404; 405; 406; 461; 457; 27]).

(** ** The navigation engine as a transition system

    The operations a collaborator or a key event can run on the
    remote-control handler, and the handler together with the content
    scope that [enableContentNavigation] installed last. *)

Module Engine.
Import Remote.

Inductive Op :=
  | MoveLeft
  | MoveRight
  | MoveUp
  | MoveDown
  | Activate
  | BackNavigate
  | Reset (found : list NavItem)
  | KeyDown (code : Z)
  | EnterContentScope (contentElement : option (list ElemId))
  | ContentKeyDown (code : Z)
  | LeaveContentScope (contentElement : option (list ElemId)).

Record T := mk {
  handler : State;
  scope : option ContentScope
}.

(** A listener that throws leaves the fields as they were: the only throw
    of [contentKeyDown] comes before its first assignment. *)
Definition step (op : Op) (e : T) : T :=
  match op with
  | MoveLeft => mk (navigateLeft (handler e)) (scope e)
  | MoveRight => mk (navigateRight (handler e)) (scope e)
  | MoveUp => mk (navigateUp (handler e)) (scope e)
  | MoveDown => mk (navigateDown (handler e)) (scope e)
  | Activate => mk (activateCurrentItem (handler e)) (scope e)
  | BackNavigate => mk (handleBackNavigation (handler e)) (scope e)
  | Reset found => mk (reset found (handler e)) (scope e)
  | KeyDown code => mk (handleKeyPress (keydown code) (handler e)).2 (scope e)
  | EnterContentScope ce =>
      let '(c, h) := enableContentNavigation ce (handler e) in
      mk h (match c with Some _ => c | None => scope e end)
  | ContentKeyDown code =>
      match scope e with
      | Some c =>
          match contentKeyDown (keydown code) c (handler e) with
          | Some (_, c', h') => mk h' (Some c')
          | None => e
          end
      | None => e
      end
  | LeaveContentScope ce =>
      mk (disableContentNavigation ce (handler e)) (scope e)
  end.

Definition run (ops : list Op) (e : T) : T :=
  foldl (fun e op => step op e) e ops.

Definition start (found : list NavItem) (act home : option ElemId) : T :=
  mk (construct found act home) None.

End Engine.

(** Positions of the items that carry the ['active'] class, counted from
    [k]. *)
Fixpoint markedFrom (k : nat) (items : list Remote.NavItem) : list nat :=
  match items with
  | [] => []
  | it :: rest =>
      if Remote.classActive it
      then k :: markedFrom (S k) rest
      else markedFrom (S k) rest
  end.

Definition marked (h : Remote.State) : list nat :=
  markedFrom 0 (Remote.navItems h).

(** The focus invariant: with a non-empty item sequence the index is in
    range and the item at the index is the only marked one. *)
Definition focus_inv (h : Remote.State) : Prop :=
  Remote.navItems h ≠ [] ->
  0 <= Remote.currentFocus h < js_length (Remote.navItems h)
  /\ marked h = [Z.to_nat (Remote.currentFocus h)].

(** ** Keys received by a content scope, one after the other *)

Module ContentKeys.
Import Remote.

(** The index of a scope points at one of its elements. *)
Definition scope_ok (c : ContentScope) : Prop :=
  0 <= contentFocus c < js_length (focusableElements c).

(** The scope's listener run on a sequence of key codes; [None] as soon as
    one run throws. *)
Fixpoint contentKeys (codes : list Z) (c : ContentScope) (h : State)
    : option (ContentScope * State) :=
  match codes with
  | [] => Some (c, h)
  | code :: rest =>
      '(_, c', h') ← contentKeyDown (keydown code) c h;
      contentKeys rest c' h'
  end.

(** The buttons of a list of navigation items. *)
Definition navButtons (items : list NavItem) : list ElemId :=
  omap navButton items.

End ContentKeys.

(** ** A keydown whose target lies inside a content scope

    The scope's listener sits on the content element and the handlers of
    the document on [document]: the event reaches the scope's listener
    first and then bubbles to the document listeners. [preventDefault]
    does not stop that, and no listener calls [stopPropagation]. An error
    thrown by the scope's listener is reported and the event goes on to
    the document all the same. *)

Module Delivery.
Import Remote.

Record Delivered := mkDelivered {
  d_event : KeyEvent;
  d_scope : ContentScope;
  d_handler : State;
  d_effects : list Panasonic.TvEffect;
  d_threw : bool
}.

Definition dispatchContentKey (isTV : bool) (w : Panasonic.Window)
    (confirmed : bool) (event : KeyEvent) (c : ContentScope) (h : State)
    : Delivered :=
  let '(event, c', h', threw) :=
    match contentKeyDown event c h with
    | Some (event', c', h') => (event', c', h', false)
    | None => (event, c, h, true)
    end in
  let '(event, h'', out) := route isTV w confirmed event h' in
  {| d_event := event; d_scope := c'; d_handler := h'';
     d_effects := out; d_threw := threw |}.

(** A sequence of such keys; the flag tells whether any run of the scope's
    listener threw. *)
Fixpoint dispatchContentKeys (isTV : bool) (w : Panasonic.Window)
    (confirmed : bool) (codes : list Z) (c : ContentScope) (h : State)
    : ContentScope * State * bool :=
  match codes with
  | [] => (c, h, false)
  | code :: rest =>
      let d := dispatchContentKey isTV w confirmed (keydown code) c h in
      let '(c', h', threw) :=
        dispatchContentKeys isTV w confirmed rest (d_scope d) (d_handler d) in
      (c', h', d_threw d || threw)
  end.

End Delivery.

(** ** js/panasonic-api.js: what the constructor installs *)

Module TvInit.
Import Panasonic.

(** The fields [init()] assigns and the document listeners it adds. *)
Record T := mk {
  isTV : bool;
  capabilities : Capabilities;
  this_tvKeyCodes : option TvKeyCodes;
  tvKeysListener : bool;
  simulationListener : bool;
  mediaListeners : bool
}.

(** [setupTVKeyHandling()] *)
Definition setupTVKeyHandling (t : T) : T :=
  mk (isTV t) (capabilities t) (Some tvKeyCodes) true
     (simulationListener t) (mediaListeners t).

(** [integrateFirefoxOSFeatures()] *)
Definition integrateFirefoxOSFeatures (t : T) : T :=
  mk (isTV t) (capabilities t) (this_tvKeyCodes t) (tvKeysListener t)
     (simulationListener t) true.

(** [initTVSpecificFeatures()]; [optimizeForTV()] only restyles the page,
    and the two info calls have their results dropped. *)
Definition initTVSpecificFeatures (w : Window) (t : T) : T :=
  let t := setupTVKeyHandling t in
  if cap_firefoxOS (capabilities t) && bool_decide (is_Some (firefoxOSAPI w))
  then integrateFirefoxOSFeatures t
  else t.

(** [simulateTVEnvironment()], reached through [initBrowserFallbacks()] *)
Definition simulateTVEnvironment (t : T) : T :=
  mk (isTV t) (capabilities t) (this_tvKeyCodes t) (tvKeysListener t)
     true (mediaListeners t).

Definition initBrowserFallbacks (t : T) : T := simulateTVEnvironment t.

(** [init()] *)
Definition init (w : Window) (t : T) : T :=
  if isTV t then initTVSpecificFeatures w t else initBrowserFallbacks t.

(** The constructor; [detected] is the result of
    [detectTVEnvironment()]. *)
Definition construct (detected : bool) (w : Window)
    (nav : FirefoxOS.Navigator) : T :=
  init w (mk detected (getCapabilities w nav) None false false false).

(** The listener of [simulateTVEnvironment()]: [altKey] and [key] are the
    event's; it builds a stand-in event from [this.tvKeyCodes] and passes
    it to [handleTVKeys]. [None] is the TypeError of reading a key code
    off an unset table. *)
Definition simulatedKey (t : T) (w : Window) (confirmed : bool)
    (altKey : bool) (key : string) (h : Remote.State)
    : option (Remote.State * list TvEffect) :=
  let press (pick : TvKeyCodes -> Z) :=
    codes ← this_tvKeyCodes t;
    let '(_, h', out) :=
      handleTVKeys codes (isTV t) w confirmed (keydown (pick codes)) h in
    Some (h', out) in
  if altKey then
    if decide (key = "1") then press RED
    else if decide (key = "2") then press GREEN
    else if decide (key = "3") then press YELLOW
    else if decide (key = "4") then press BLUE
    else Some (h, [])
  else Some (h, []).

End TvInit.

(** ** js/firefox-os-api.js: activities *)

Module Activities.

Inductive Effect :=
  | MediaEvent (eventName : string) (type : string)
  | PostResult (success : bool).

(** [data.type && data.type.startsWith(p)] for a present [data]. *)
Definition type_startsWith (type : option string) (p : string) : bool :=
  match type with
  | Some t => String.prefix p t
  | None => false
  end.

(** [handleViewActivity(activityRequest)]: [data] is
    [activityRequest.source.data], [None] when it is missing, and then
    reading [data.type] throws. *)
Definition handleViewActivity (data : option (option string))
    : option (list Effect) :=
  type ← data;
  let shown := default EmptyString type in
  let dispatched :=
    if type_startsWith type "video/" then [MediaEvent "firefoxos-video" shown]
    else if type_startsWith type "audio/"
    then [MediaEvent "firefoxos-audio" shown]
    else if type_startsWith type "image/"
    then [MediaEvent "firefoxos-image" shown]
    else [] in
  Some (dispatched ++ [PostResult true]).

(** The message handler that [initActivities()] registers. *)
Definition onActivity (activityName : string) (data : option (option string))
    : option (list Effect) :=
  if decide (activityName = "view") then handleViewActivity data
  else Some [].

End Activities.

(** ** js/app.js: switching the visible section *)

Module App.

(** An element of the page: its id (empty when it has none), whether it
    is a [.content-section], and whether its class list holds
    ['active']. *)
Record Element := mkElement {
  el_id : string;
  contentSection : bool;
  el_active : bool
}.

Inductive Effect :=
  | ContentLoaded (sectionName : string)
  | SectionChange (previous current : string).

Record State := mkState {
  currentSection : string;
  page : list Element;
  events : list Effect
}.

Definition hide (el : Element) : Element :=
  if contentSection el
  then {| el_id := el_id el; contentSection := true; el_active := false |}
  else el.

Definition show (el : Element) : Element :=
  {| el_id := el_id el; contentSection := contentSection el;
     el_active := true |}.

(** [document.getElementById(id)]: the first element with that id. *)
Definition getElementById (p : list Element) (id : string)
    : option (nat * Element) :=
  list_find (fun el => el_id el = id) p.

(** [loadSectionContent(sectionName)], for a section that exists: only the
    four known names load anything. *)
Definition loadSectionContent (sectionName : string) : list Effect :=
  if bool_decide (sectionName ∈ ["home"; "media"; "settings"; "about"])
  then [ContentLoaded sectionName] else [].

(** [showSection(sectionName)] *)
Definition showSection (sectionName : string) (st : State) : State :=
  let hidden := hide <$> page st in
  match getElementById hidden (sectionName +:+ "-section") with
  | Some (i, _) =>
      let currentSection' := sectionName in
      {| currentSection := currentSection';
         page := alter show i hidden;
         events := events st ++ loadSectionContent sectionName
                   ++ [SectionChange currentSection' sectionName] |}
  | None =>
      {| currentSection := currentSection st;
         page := hidden;
         events := events st |}
  end.

(** The content sections that are visible. *)
Definition visible (p : list Element) : list string :=
  el_id <$> filter (fun el => contentSection el && el_active el = true) p.

End App.

(** ** Sample inputs used to exercise the statements below *)

Module Sample.
Import Remote.

(** Three items, the first marked in the markup, the last without button. *)
Definition items3 : list NavItem :=
  [ mkNavItem true (Some 10%nat);
    mkNavItem false (Some 11%nat);
    mkNavItem false None ].

(** A handler built on them, with [#home-btn] the first item's button. *)
Definition handler3 : State := construct items3 None (Some 10%nat).

(** The same document without a [#home-btn], focus moved to the last
    item. *)
Definition noHome : State :=
  navigateRight (navigateRight (construct items3 None None)).

(** Focus moved to the last item, then the items vanish from the page and
    [reset()] runs; [#home-btn] still exists. *)
Definition emptied : State :=
  reset [] (navigateRight (navigateRight handler3)).

End Sample.

Module SamplePlatform.
Import FirefoxOS.

(** A settings provider whose requests all fire [onerror]. *)
Definition failingSettings : SettingsProvider :=
  {| lock_get := fun _ => Returns (OnError "denied");
     lock_set := fun _ _ => Returns (OnError "denied") |}.

(** A video storage that yields three files and then the end. *)
Definition videos3 : DeviceStorage :=
  {| enumerate :=
       fun _ => Returns [Item "a.mp4"; Item "b.mp4"; Item "c.mp4"; Done] |}.

(** A storage whose cursor fails after one file. *)
Definition brokenStorage : DeviceStorage :=
  {| enumerate := fun _ => Returns [Item "a.mp3"; Failed "io"] |}.

(** An installed app whose [launch()] returns a request that fails. *)
Definition clock : App :=
  {| origin := "app://clock"; launch := Returns (OnError "launch failed") |}.

(** A television with Firefox OS APIs and no [window.panasonic]. *)
Definition tvNavigator : Navigator :=
  {| mozApps := Some {| getInstalled := Returns (OnSuccess [clock]) |};
     mozSettings := Some failingSettings;
     mozPower := false;
     mozBattery := false;
     getDeviceStorage :=
       Some (fun name =>
               Returns (Some (if decide (name = "videos")
                              then videos3 else brokenStorage)));
     mozSetMessageHandler := false;
     uaMobileRv := false;
     uaFirefox := true |}.

Definition tvApi : API := construct tvNavigator.

Definition tvWindow : Panasonic.Window :=
  {| Panasonic.panasonic := None;
     Panasonic.firefoxOSAPI := Some tvApi;
     Panasonic.hasHTMLVideoElement := true;
     Panasonic.hasClose := true |}.

(** A plain browser: none of the platform objects exists. *)
Definition bareNavigator : Navigator :=
  {| mozApps := None; mozSettings := None; mozPower := false;
     mozBattery := false; getDeviceStorage := None;
     mozSetMessageHandler := false; uaMobileRv := false; uaFirefox := false |}.

Definition bareWindow : Panasonic.Window :=
  {| Panasonic.panasonic := None;
     Panasonic.firefoxOSAPI := Some (construct bareNavigator);
     Panasonic.hasHTMLVideoElement := true;
     Panasonic.hasClose := true |}.

End SamplePlatform.

Module SampleStorage.
Import FirefoxOS.

(** A navigator that has [getDeviceStorage] and nothing that marks
    Firefox OS. *)
Definition storageOnly : Navigator :=
  {| mozApps := None; mozSettings := None; mozPower := false;
     mozBattery := false;
     getDeviceStorage := Some (fun _ => Returns (Some SamplePlatform.videos3));
     mozSetMessageHandler := false; uaMobileRv := false; uaFirefox := false |}.

(** A Firefox OS navigator whose [getDeviceStorage] throws for every class
    but videos. *)
Definition videosOnly : Navigator :=
  {| mozApps := None; mozSettings := None; mozPower := true;
     mozBattery := false;
     getDeviceStorage :=
       Some (fun name =>
               if decide (name = "videos")
               then Returns (Some SamplePlatform.videos3)
               else Throws "SecurityError");
     mozSetMessageHandler := false; uaMobileRv := false; uaFirefox := false |}.

End SampleStorage.

Module SampleApp.
Import App.

(** A page with a header and three content sections, the first one
    visible. *)
Definition page4 : list Element :=
  [ mkElement "header" false true;
    mkElement "home-section" true true;
    mkElement "media-section" true false;
    mkElement "about-section" true false ].

Definition started : State :=
  {| currentSection := "home"; page := page4; events := [] |}.

End SampleApp.

(** * Properties *)

Section SetFocus.
Import Remote.

Lemma markedFrom_unmark k (items : list NavItem) :
  markedFrom k (unmark <$> items) = [].
Proof.
  revert k. induction items as [|it items IH]; intros k; simpl; auto.
Qed.

Lemma markedFrom_alter_mark k (items : list NavItem) (i : nat) :
  (i < length items)%nat ->
  markedFrom k (alter mark i (unmark <$> items)) = [(k + i)%nat].
Proof.
  revert k i. induction items as [|it items IH]; intros k i Hi; simpl in *.
  - lia.
  - destruct i as [|i]; simpl.
    + rewrite markedFrom_unmark. f_equal. lia.
    + change (markedFrom (S k) (alter mark i (unmark <$> items))
              = [(k + S i)%nat]).
      rewrite IH by lia. f_equal. lia.
Qed.

Lemma setFocus_in_range index (h : State) :
  0 <= index < js_length (navItems h) ->
  currentFocus (setFocus index h) = index
  /\ navItems (setFocus index h)
     = alter mark (Z.to_nat index) (unmark <$> navItems h).
Proof.
  intros Hr. unfold setFocus.
  destruct (decide (index >= 0 /\ index < js_length (navItems h))) as [_|Hn];
    [simpl; auto | lia].
Qed.

Lemma setFocus_out_of_range index (h : State) :
  index < 0 \/ index >= js_length (navItems h) ->
  currentFocus (setFocus index h) = currentFocus h
  /\ navItems (setFocus index h) = unmark <$> navItems h.
Proof.
  intros Hr. unfold setFocus.
  destruct (decide (index >= 0 /\ index < js_length (navItems h))) as [Hn|_];
    [lia | simpl; auto].
Qed.

Lemma setFocus_length index (h : State) :
  js_length (navItems (setFocus index h)) = js_length (navItems h).
Proof.
  unfold js_length. f_equal.
  destruct (decide (0 <= index < js_length (navItems h))) as [Hr|Hr].
  - rewrite (proj2 (setFocus_in_range _ _ Hr)).
    rewrite length_alter, length_fmap. reflexivity.
  - rewrite (proj2 (setFocus_out_of_range index h ltac:(lia))).
    apply length_fmap.
Qed.

Lemma setFocus_marked index (h : State) :
  0 <= index < js_length (navItems h) ->
  marked (setFocus index h) = [Z.to_nat index].
Proof.
  intros Hr. unfold marked.
  rewrite (proj2 (setFocus_in_range _ _ Hr)).
  rewrite markedFrom_alter_mark; [reflexivity|].
  unfold js_length in Hr. lia.
Qed.

Lemma setFocus_homeBtn index (h : State) :
  homeBtn (setFocus index h) = homeBtn h.
Proof. unfold setFocus. case_decide; reflexivity. Qed.

Lemma setFocus_effects index (h : State) :
  effects (setFocus index h) = effects h.
Proof. unfold setFocus. case_decide; reflexivity. Qed.

Lemma setFocus_focus_inv index (h : State) :
  0 <= index < js_length (navItems h) -> focus_inv (setFocus index h).
Proof.
  intros Hr _. rewrite setFocus_length.
  rewrite (proj1 (setFocus_in_range _ _ Hr)), (setFocus_marked _ _ Hr). auto.
Qed.

End SetFocus.

Section Wraparound.
Import Remote.

Lemma playNavigationSound_fields (h : State) :
  currentFocus (playNavigationSound h) = currentFocus h
  /\ navItems (playNavigationSound h) = navItems h.
Proof. split; reflexivity. Qed.

Lemma navigateRight_length (h : State) :
  js_length (navItems (navigateRight h)) = js_length (navItems h).
Proof.
  unfold navigateRight. rewrite (proj2 (playNavigationSound_fields _)).
  case_decide; apply setFocus_length.
Qed.

Lemma navigateLeft_length (h : State) :
  js_length (navItems (navigateLeft h)) = js_length (navItems h).
Proof.
  unfold navigateLeft. rewrite (proj2 (playNavigationSound_fields _)).
  case_decide; apply setFocus_length.
Qed.

Lemma navigateRight_index (h : State) :
  0 <= currentFocus h < js_length (navItems h) ->
  currentFocus (navigateRight h)
  = (currentFocus h + 1) mod js_length (navItems h).
Proof.
  intros Hr. unfold navigateRight.
  rewrite (proj1 (playNavigationSound_fields _)).
  destruct (decide (currentFocus h < js_length (navItems h) - 1)) as [Hlt|Hge].
  - rewrite (proj1 (setFocus_in_range (currentFocus h + 1) h ltac:(lia))).
    symmetry. apply Z.mod_small. lia.
  - rewrite (proj1 (setFocus_in_range 0 h ltac:(lia))).
    replace (currentFocus h + 1) with (js_length (navItems h)) by lia.
    symmetry. apply Z_mod_same_full.
Qed.

Lemma navigateLeft_index (h : State) :
  0 <= currentFocus h < js_length (navItems h) ->
  currentFocus (navigateLeft h)
  = (currentFocus h - 1 + js_length (navItems h)) mod js_length (navItems h).
Proof.
  intros Hr. unfold navigateLeft.
  rewrite (proj1 (playNavigationSound_fields _)).
  destruct (decide (currentFocus h > 0)) as [Hgt|Hle].
  - rewrite (proj1 (setFocus_in_range (currentFocus h - 1) h ltac:(lia))).
    replace (currentFocus h - 1 + js_length (navItems h))
      with (currentFocus h - 1 + 1 * js_length (navItems h)) by lia.
    rewrite Z_mod_plus_full. symmetry. apply Z.mod_small. lia.
  - rewrite (proj1 (setFocus_in_range (js_length (navItems h) - 1) h
               ltac:(lia))).
    replace (currentFocus h - 1 + js_length (navItems h))
      with (js_length (navItems h) - 1) by lia.
    symmetry. apply Z.mod_small. lia.
Qed.

(** [k] presses of Right from an in-range index advance it by [k],
    modulo the number of items. *)
Lemma navigateRight_iter (k : nat) (h : State) :
  0 <= currentFocus h < js_length (navItems h) ->
  js_length (navItems (Nat.iter k navigateRight h)) = js_length (navItems h)
  /\ currentFocus (Nat.iter k navigateRight h)
     = (currentFocus h + Z.of_nat k) mod js_length (navItems h).
Proof.
  intros Hr. induction k as [|k [IHlen IHidx]].
  - simpl. split; [reflexivity|].
    rewrite Z.add_0_r. symmetry. apply Z.mod_small. lia.
  - change (Nat.iter (S k) navigateRight h)
      with (navigateRight (Nat.iter k navigateRight h)).
    split.
    + rewrite navigateRight_length. exact IHlen.
    + rewrite navigateRight_index.
      * rewrite IHlen, IHidx, Zplus_mod_idemp_l. f_equal. lia.
      * rewrite IHlen, IHidx. apply Z.mod_pos_bound. lia.
Qed.

(** C1. With n >= 2 focusable items and the index i in range,
    [navigateRight] sets the index to (i + 1) mod n and [navigateLeft] to
    (i - 1 + n) mod n; in particular Left from 0 gives n - 1, and n presses
    of Right come back to i. *)
Theorem navigate_wraps_circularly (h : State) :
  let n := js_length (navItems h) in
  let i := currentFocus h in
  2 <= n -> 0 <= i < n ->
  currentFocus (navigateRight h) = (i + 1) mod n
  /\ currentFocus (navigateLeft h) = (i - 1 + n) mod n
  /\ (i = 0 -> currentFocus (navigateLeft h) = n - 1)
  /\ currentFocus (Nat.iter (Z.to_nat n) navigateRight h) = i.
Proof.
  intros n i Hn Hi. subst n i.
  split; [apply navigateRight_index; lia|].
  split; [apply navigateLeft_index; lia|].
  split.
  - intros H0. rewrite navigateLeft_index by lia. rewrite H0.
    replace (0 - 1 + js_length (navItems h))
      with (js_length (navItems h) - 1) by lia.
    apply Z.mod_small. lia.
  - rewrite (proj2 (navigateRight_iter _ h Hi)).
    rewrite Z2Nat.id by lia.
    replace (currentFocus h + js_length (navItems h))
      with (currentFocus h + 1 * js_length (navItems h)) by lia.
    rewrite Z_mod_plus_full. apply Z.mod_small. lia.
Qed.

End Wraparound.

Lemma navigate_wraps_circularly_witness :
  Remote.currentFocus (Remote.navigateRight Sample.noHome) = 0
  /\ Remote.currentFocus (Remote.navigateLeft Sample.handler3) = 2.
Proof.
  split.
  - etransitivity.
    + apply (navigate_wraps_circularly Sample.noHome); vm_compute;
        intuition discriminate.
    + reflexivity.
  - apply (navigate_wraps_circularly Sample.handler3); vm_compute;
      intuition discriminate.
Defined.

Section OutOfRange.
Import Remote.

Lemma Forall_unmark (items : list NavItem) :
  Forall (fun it => classActive it = false) (unmark <$> items).
Proof. induction items; simpl; constructor; auto. Qed.

(** C10. For an index outside [0, length), with any item sequence, the
    empty one included, [setFocus] (a total function: nothing in it can
    throw) keeps [currentFocus], and still strips the marker from every
    item, so that no item is marked afterwards. *)
Theorem setFocus_out_of_range_unmarks_all (index : Z) (h : State) :
  index < 0 \/ index >= js_length (navItems h) ->
  currentFocus (setFocus index h) = currentFocus h
  /\ navItems (setFocus index h) = unmark <$> navItems h
  /\ Forall (fun it => classActive it = false) (navItems (setFocus index h))
  /\ marked (setFocus index h) = [].
Proof.
  intros Hout.
  destruct (setFocus_out_of_range index h Hout) as [Hcur Hitems].
  repeat split; auto.
  - rewrite Hitems. apply Forall_unmark.
  - unfold marked. rewrite Hitems. apply markedFrom_unmark.
Qed.

Lemma setFocus_out_of_range_unmarks_all_witness :
  currentFocus (setFocus 7 Sample.noHome) = 2
  /\ marked (setFocus 7 Sample.noHome) = []
  /\ marked (setFocus (-1) Sample.emptied) = [].
Proof.
  split; [|split].
  - apply (setFocus_out_of_range_unmarks_all 7 Sample.noHome).
    right. vm_compute. discriminate.
  - apply (setFocus_out_of_range_unmarks_all 7 Sample.noHome).
    right. vm_compute. discriminate.
  - apply (setFocus_out_of_range_unmarks_all (-1) Sample.emptied).
    left. reflexivity.
Defined.

End OutOfRange.

Section ContentScope.
Import Remote.

Lemma enableContentNavigation_index ce (h : State) :
  currentFocus (enableContentNavigation ce h).2 = currentFocus h
  /\ navItems (enableContentNavigation ce h).2 = navItems h.
Proof. destruct ce as [[|first rest]|]; split; reflexivity. Qed.

Lemma navigateContent_index d (c c' : ContentScope) (h h' : State) :
  navigateContent d c h = Some (c', h') ->
  currentFocus h' = currentFocus h /\ navItems h' = navItems h.
Proof.
  unfold navigateContent. intros H.
  destruct (js_index (focusableElements c) (contentFocus c)); simpl in H;
    [|discriminate].
  destruct (js_index (focusableElements c) _); simpl in H; [|discriminate].
  inversion H; subst. split; reflexivity.
Qed.

(** The listener of a content scope never moves the parent index,
    whichever key it receives. *)
Lemma contentKeyDown_index ev ev' (c c' : ContentScope) (h h' : State) :
  contentKeyDown ev c h = Some (ev', c', h') ->
  currentFocus h' = currentFocus h.
Proof.
  unfold contentKeyDown. intros H.
  destruct (keyCode ev =? 38).
  { destruct (navigateContent DirUp c h) as [[c1 h1]|] eqn:E; simpl in H;
      [|discriminate].
    inversion H; subst. eapply navigateContent_index; eauto. }
  destruct (keyCode ev =? 40).
  { destruct (navigateContent DirDown c h) as [[c1 h1]|] eqn:E; simpl in H;
      [|discriminate].
    inversion H; subst. eapply navigateContent_index; eauto. }
  destruct ((keyCode ev =? 37) || (keyCode ev =? 39)); inversion H; subst.
  - destruct (decide (0 <= currentFocus h < js_length (navItems h))) as [Hr|Hr].
    + apply (setFocus_in_range _ _ Hr).
    + apply setFocus_out_of_range. lia.
  - reflexivity.
Qed.

(** Seen on its own, the scope's listener keeps the parent index: entry
    leaves [currentFocus] as it is, and the listener answers Left or Right
    by calling [setFocus] on that same index. *)
Lemma content_scope_keeps_parent_index ce (h : State) (code : Z) :
  code = 37 \/ code = 39 ->
  currentFocus (enableContentNavigation ce h).2 = currentFocus h
  /\ forall c, (enableContentNavigation ce h).1 = Some c ->
       exists c' h',
         contentKeyDown (keydown code) c (enableContentNavigation ce h).2
         = Some (preventDefault (keydown code), c', h')
         /\ currentFocus h' = currentFocus h.
Proof.
  intros Hcode.
  split; [apply enableContentNavigation_index|].
  intros c Hc.
  assert (Hk : contentKeyDown (keydown code) c (enableContentNavigation ce h).2
               = Some (preventDefault (keydown code), c,
                       setFocus (currentFocus (enableContentNavigation ce h).2)
                         (enableContentNavigation ce h).2)).
  { unfold contentKeyDown. destruct Hcode; subst code; reflexivity. }
  eexists _, _. split; [exact Hk|].
  rewrite (contentKeyDown_index _ _ _ _ _ _ Hk).
  apply enableContentNavigation_index.
Qed.

End ContentScope.

Section BackNavigation.
Import Remote.

(** C3, as stated, fails: without a [#home-btn] element nothing happens
    and the index stays at 2; with the button but an emptied item
    sequence the button is clicked and the index still stays at 2. *)
Lemma backNavigate_may_keep_index :
  currentFocus Sample.noHome = 2
  /\ handleBackNavigation Sample.noHome = Sample.noHome
  /\ currentFocus (handleBackNavigation Sample.noHome) <> 0
  /\ currentFocus (handleBackNavigation Sample.emptied) = 2.
Proof. vm_compute. repeat split; discriminate. Qed.

(** C3, amended. If the document has a [#home-btn] element and the item
    sequence is not empty, [handleBackNavigation] clicks that element and
    then sets [currentFocus] to 0 with the first item the only marked one,
    from any state; without the element it changes nothing. *)
Theorem backNavigate_resets_when_home_exists (h : State) :
  (forall homeButton,
     homeBtn h = Some homeButton -> navItems h <> [] ->
     currentFocus (handleBackNavigation h) = 0
     /\ marked (handleBackNavigation h) = [0%nat]
     /\ effects (handleBackNavigation h) = effects h ++ [Click homeButton])
  /\ (homeBtn h = None -> handleBackNavigation h = h).
Proof.
  unfold handleBackNavigation. split.
  - intros b Hb Hne. rewrite Hb.
    assert (Hr : 0 <= 0 < js_length (navItems (emit (Click b) h))).
    { simpl. unfold js_length. destruct (navItems h); [congruence|simpl; lia]. }
    rewrite (proj1 (setFocus_in_range 0 _ Hr)), (setFocus_marked 0 _ Hr).
    rewrite setFocus_effects. auto.
  - intros Hb. rewrite Hb. reflexivity.
Qed.

Lemma backNavigate_resets_when_home_exists_witness :
  currentFocus
    (handleBackNavigation (navigateRight (navigateRight Sample.handler3))) = 0
  /\ handleBackNavigation Sample.noHome = Sample.noHome.
Proof.
  split.
  - apply (proj1 (backNavigate_resets_when_home_exists
                    (navigateRight (navigateRight Sample.handler3)))
             10%nat).
    + reflexivity.
    + vm_compute. discriminate.
  - apply (proj2 (backNavigate_resets_when_home_exists Sample.noHome)).
    reflexivity.
Defined.

End BackNavigation.

Section FocusInvariant.
Import Remote Engine.

Lemma focus_inv_fields (h h' : State) :
  navItems h' = navItems h -> currentFocus h' = currentFocus h ->
  focus_inv h -> focus_inv h'.
Proof.
  unfold focus_inv, marked. intros -> -> H. exact H.
Qed.

Lemma setFocus_empty index (h : State) :
  navItems h = [] -> navItems (setFocus index h) = [].
Proof.
  intros He. apply length_zero_iff_nil.
  pose proof (setFocus_length index h) as Hl.
  unfold js_length in Hl. rewrite He in Hl. simpl in Hl. lia.
Qed.

(** [setFocus] keeps the invariant whenever its argument is in range for
    a non-empty sequence; this is where the markers of all other items
    are removed before the new item is marked. *)
Lemma setFocus_keeps_inv index (h : State) :
  (navItems h <> [] -> 0 <= index < js_length (navItems h)) ->
  focus_inv (setFocus index h).
Proof.
  intros Hr. destruct (navItems h) as [|it items] eqn:E.
  - intros Hne. exfalso. apply Hne. apply setFocus_empty. exact E.
  - apply setFocus_focus_inv. rewrite E. apply Hr. discriminate.
Qed.

Lemma navigateLeft_keeps_inv (h : State) :
  focus_inv h -> focus_inv (navigateLeft h).
Proof.
  intros Hinv. unfold navigateLeft.
  eapply focus_inv_fields; [reflexivity | reflexivity |].
  case_decide; apply setFocus_keeps_inv; intros Hne;
    destruct (Hinv Hne) as [Hr _]; lia.
Qed.

Lemma navigateRight_keeps_inv (h : State) :
  focus_inv h -> focus_inv (navigateRight h).
Proof.
  intros Hinv. unfold navigateRight.
  eapply focus_inv_fields; [reflexivity | reflexivity |].
  case_decide; apply setFocus_keeps_inv; intros Hne;
    destruct (Hinv Hne) as [Hr _]; lia.
Qed.

Lemma activateCurrentItem_keeps_inv (h : State) :
  focus_inv h -> focus_inv (activateCurrentItem h).
Proof.
  intros Hinv. unfold activateCurrentItem.
  destruct (js_index (navItems h) (currentFocus h)) as [it|]; auto.
  destruct (navButton it); auto.
Qed.

Lemma handleBackNavigation_keeps_inv (h : State) :
  focus_inv h -> focus_inv (handleBackNavigation h).
Proof.
  intros Hinv. unfold handleBackNavigation.
  destruct (homeBtn h); auto.
  apply setFocus_keeps_inv. simpl. unfold js_length.
  destruct (navItems h); [congruence | simpl; lia].
Qed.

Lemma setInitialFocus_inv (h : State) : focus_inv (setInitialFocus h).
Proof.
  unfold setInitialFocus. case_decide as Hlen.
  - apply setFocus_keeps_inv. lia.
  - intros Hne. exfalso. apply Hne. apply length_zero_iff_nil.
    unfold js_length in Hlen. lia.
Qed.

Lemma reset_inv found (h : State) : focus_inv (reset found h).
Proof.
  unfold reset.
  eapply focus_inv_fields; [reflexivity | reflexivity |].
  apply setInitialFocus_inv.
Qed.

Lemma construct_inv found act home : focus_inv (construct found act home).
Proof. unfold construct, init. apply setInitialFocus_inv. Qed.

Lemma with_isNavigating_keeps_inv b (h : State) :
  focus_inv h -> focus_inv (with_isNavigating b h).
Proof. apply focus_inv_fields; reflexivity. Qed.

Lemma handleKeyPress_keeps_inv ev (h : State) :
  focus_inv h -> focus_inv (handleKeyPress ev h).2.
Proof.
  intros Hinv. unfold handleKeyPress.
  assert (Hsplit : exists ev1 h1,
            (if bool_decide (keyCode ev ∈ navigationKeys)
             then (preventDefault ev, with_isNavigating true h)
             else (ev, h)) = (ev1, h1) /\ focus_inv h1).
  { case_bool_decide; eexists _, _; split; try reflexivity;
      auto using with_isNavigating_keeps_inv. }
  destruct Hsplit as (ev1 & h1 & -> & Hinv1). simpl.
  repeat match goal with
         | |- context [if ?b then _ else _] => destruct b
         end;
    auto using navigateLeft_keeps_inv, navigateRight_keeps_inv,
      activateCurrentItem_keeps_inv, handleBackNavigation_keeps_inv,
      with_isNavigating_keeps_inv.
Qed.

Lemma contentKeyDown_keeps_inv ev ev' (c c' : ContentScope) (h h' : State) :
  contentKeyDown ev c h = Some (ev', c', h') ->
  focus_inv h -> focus_inv h'.
Proof.
  unfold contentKeyDown. intros H Hinv.
  destruct (keyCode ev =? 38).
  { destruct (navigateContent DirUp c h) as [[c1 h1]|] eqn:E; simpl in H;
      [|discriminate].
    inversion H; subst. destruct (navigateContent_index _ _ _ _ _ E).
    eapply focus_inv_fields; eauto. }
  destruct (keyCode ev =? 40).
  { destruct (navigateContent DirDown c h) as [[c1 h1]|] eqn:E; simpl in H;
      [|discriminate].
    inversion H; subst. destruct (navigateContent_index _ _ _ _ _ E).
    eapply focus_inv_fields; eauto. }
  destruct ((keyCode ev =? 37) || (keyCode ev =? 39)); inversion H; subst; auto.
  apply setFocus_keeps_inv. intros Hne. apply (Hinv Hne).
Qed.

Lemma step_keeps_inv (op : Op) (e : Engine.T) :
  focus_inv (handler e) -> focus_inv (handler (step op e)).
Proof.
  intros Hinv. destruct op; simpl;
    auto using navigateLeft_keeps_inv, navigateRight_keeps_inv,
      activateCurrentItem_keeps_inv, handleBackNavigation_keeps_inv, reset_inv,
      handleKeyPress_keeps_inv.
  - destruct (enableContentNavigation contentElement (handler e))
      as [c h1] eqn:E. simpl.
    pose proof (enableContentNavigation_index contentElement (handler e)) as Hi.
    rewrite E in Hi. simpl in Hi. destruct Hi.
    eapply focus_inv_fields; eauto.
  - destruct (scope e) as [c|]; auto.
    destruct (contentKeyDown (keydown code) c (handler e))
      as [[[ev' c'] h']|] eqn:E; auto.
    simpl. eapply contentKeyDown_keeps_inv; eauto.
  - destruct contentElement; auto.
Qed.

(** The invariant holds in every state the engine can reach from its
    constructor. *)
Lemma focus_invariant_reachable found act home (ops : list Op) :
  focus_inv (handler (run ops (start found act home))).
Proof.
  unfold run. induction ops as [|op ops IH] using rev_ind.
  - apply construct_inv.
  - rewrite foldl_app. simpl. apply step_keeps_inv. exact IH.
Qed.

(** C9. Every operation of the engine preserves the focus invariant: if,
    whenever the item sequence is non-empty, the index is within
    [0, length) and the item at the index is the one and only marked
    item, then the same holds after the operation; and when the operation
    is a focus change to an index in range, the items are first all
    unmarked and then that single item is marked. *)
Theorem focus_invariant_preserved (op : Op) (e : Engine.T) :
  focus_inv (handler e) ->
  focus_inv (handler (step op e))
  /\ forall index, 0 <= index < js_length (navItems (handler e)) ->
       navItems (setFocus index (handler e))
       = alter mark (Z.to_nat index) (unmark <$> navItems (handler e))
       /\ marked (setFocus index (handler e)) = [Z.to_nat index].
Proof.
  intros Hinv. split; [apply step_keeps_inv; exact Hinv|].
  intros index Hr. split.
  - apply (setFocus_in_range _ _ Hr).
  - apply (setFocus_marked _ _ Hr).
Qed.

Lemma focus_invariant_preserved_witness :
  focus_inv (handler (step MoveRight (Engine.mk Sample.noHome None)))
  /\ marked (handler (step MoveRight (Engine.mk Sample.noHome None)))
     = [0%nat].
Proof.
  split; [|reflexivity].
  apply (focus_invariant_preserved MoveRight (Engine.mk Sample.noHome None)).
  intros _. split; [vm_compute; intuition discriminate | reflexivity].
Defined.

End FocusInvariant.

Section StorageListing.
Import FirefoxOS.

(** Files yielded by the cursor are appended, in order, to those already
    collected. *)
Lemma drain_items (acc files : list FileHandle) (rest : list CursorStep) :
  drain acc ((Item <$> files) ++ rest) = drain (acc ++ files) rest.
Proof.
  revert acc. induction files as [|f files IH]; intros acc; simpl.
  - rewrite app_nil_r. reflexivity.
  - change (drain (acc ++ [f]) ((Item <$> files) ++ rest)
            = drain (acc ++ f :: files) rest).
    rewrite IH, <- app_assoc. reflexivity.
Qed.

Lemma select_storage_invalid (a : API) (storageType : string) :
  storageType <> "videos" -> storageType <> "music" ->
  storageType <> "pictures" ->
  select_storage a storageType = None.
Proof.
  intros Hv Hm Hp. unfold select_storage.
  repeat case_decide; congruence.
Qed.

(** C6. [getStorageFiles] resolves to the empty list for a storage class
    other than videos, music and pictures, and for a class whose storage
    object is missing; with a storage whose cursor yields the files
    [files] and then signals the end, it resolves (once: a promise settles
    once) to exactly [files], in the order the cursor yielded them. *)
Theorem getStorageFiles_collects_in_order (a : API) (path : string) :
  (forall storageType,
     storageType <> "videos" -> storageType <> "music" ->
     storageType <> "pictures" ->
     getStorageFiles a storageType path = Resolved [])
  /\ (forall storageType,
        select_storage a storageType = Some None ->
        getStorageFiles a storageType path = Resolved [])
  /\ (forall storageType storage files rest,
        select_storage a storageType = Some (Some storage) ->
        enumerate storage path = Returns ((Item <$> files) ++ Done :: rest) ->
        getStorageFiles a storageType path = Resolved files).
Proof.
  unfold getStorageFiles. repeat split.
  - intros ty Hv Hm Hp. rewrite select_storage_invalid by assumption.
    reflexivity.
  - intros ty Hs. rewrite Hs. reflexivity.
  - intros ty storage files rest Hs He. rewrite Hs, He.
    rewrite drain_items. reflexivity.
Qed.

Lemma getStorageFiles_collects_in_order_witness :
  getStorageFiles SamplePlatform.tvApi "videos" ""
  = Resolved ["a.mp4"; "b.mp4"; "c.mp4"]
  /\ getStorageFiles SamplePlatform.tvApi "downloads" "" = Resolved [].
Proof.
  split.
  - apply (proj2 (proj2 (getStorageFiles_collects_in_order
                           SamplePlatform.tvApi "")))
      with (storage := SamplePlatform.videos3) (rest := []);
      reflexivity.
  - apply (proj1 (getStorageFiles_collects_in_order SamplePlatform.tvApi ""));
      discriminate.
Defined.

End StorageListing.

Section FailurePolicy.
Import FirefoxOS.

(** C2, as stated, fails: a settings provider whose request fires
    [onerror] makes [getSystemSetting] and [setSystemSetting] reject, a
    cursor that fails makes [getStorageFiles] reject, and none of them
    yields its fallback value. *)
Lemma provider_error_signal_rejects :
  getSystemSetting SamplePlatform.tvApi "deviceinfo.os" = Rejected "denied"
  /\ getSystemSetting SamplePlatform.tvApi "deviceinfo.os" <> Resolved VNull
  /\ setSystemSetting SamplePlatform.tvApi "volume" (VNum 3) = Rejected "denied"
  /\ getStorageFiles SamplePlatform.tvApi "music" "" = Rejected "io".
Proof. vm_compute. repeat split; discriminate. Qed.

(** C2, amended. In each accessor an exception thrown by the call into
    the provider is caught and turned into the fallback value (null,
    false, the empty list, false); an error that the provider reports
    later through the request's [onerror] rejects the returned promise with
    the provider's error. *)
Theorem provider_errors_at_the_boundary (nav : Navigator) (a : API)
    (e : Error) :
  (forall p key,
     this_settings a = Some p -> lock_get p key = Throws e ->
     getSystemSetting a key = Resolved VNull)
  /\ (forall p key value,
        this_settings a = Some p -> lock_set p key value = Throws e ->
        setSystemSetting a key value = Resolved false)
  /\ (forall storageType path storage,
        select_storage a storageType = Some (Some storage) ->
        enumerate storage path = Throws e ->
        getStorageFiles a storageType path = Resolved [])
  /\ (forall p appOrigin,
        apps (capabilities a) = true -> mozApps nav = Some p ->
        getInstalled p = Throws e ->
        launchApp nav a appOrigin = Resolved false)
  /\ (forall p key,
        this_settings a = Some p -> lock_get p key = Returns (OnError e) ->
        getSystemSetting a key = Rejected e)
  /\ (forall p key value,
        this_settings a = Some p ->
        lock_set p key value = Returns (OnError e) ->
        setSystemSetting a key value = Rejected e)
  /\ (forall storageType path storage files rest,
        select_storage a storageType = Some (Some storage) ->
        enumerate storage path
        = Returns ((Item <$> files) ++ Failed e :: rest) ->
        getStorageFiles a storageType path = Rejected e)
  /\ (forall p appOrigin,
        apps (capabilities a) = true -> mozApps nav = Some p ->
        getInstalled p = Returns (OnError e) ->
        launchApp nav a appOrigin = Rejected e).
Proof.
  unfold getSystemSetting, setSystemSetting, getStorageFiles, launchApp.
  repeat split.
  - intros p key -> ->. reflexivity.
  - intros p key value -> ->. reflexivity.
  - intros ty path storage -> ->. reflexivity.
  - intros p o -> -> ->. reflexivity.
  - intros p key -> ->. reflexivity.
  - intros p key value -> ->. reflexivity.
  - intros ty path storage files rest -> ->. rewrite drain_items. reflexivity.
  - intros p o -> -> ->. reflexivity.
Qed.

Lemma provider_errors_at_the_boundary_witness :
  getSystemSetting SamplePlatform.tvApi "deviceinfo.os" = Rejected "denied"
  /\ getStorageFiles SamplePlatform.tvApi "music" "" = Rejected "io".
Proof.
  pose proof (provider_errors_at_the_boundary
                SamplePlatform.tvNavigator SamplePlatform.tvApi "denied")
    as (_ & _ & _ & _ & Hget & _).
  pose proof (provider_errors_at_the_boundary
                SamplePlatform.tvNavigator SamplePlatform.tvApi "io")
    as (_ & _ & _ & _ & _ & _ & Hfiles & _).
  split.
  - apply (Hget SamplePlatform.failingSettings); reflexivity.
  - apply (Hfiles "music" "" SamplePlatform.brokenStorage ["a.mp3"] []);
      reflexivity.
Defined.

End FailurePolicy.

Section LaunchApp.
Import FirefoxOS.

(** C7, as stated, fails: [launchApp] resolves to true for an installed
    app whose own launch request fires [onerror]. *)
Lemma launchApp_true_without_launch_success :
  launchApp SamplePlatform.tvNavigator SamplePlatform.tvApi "app://clock"
  = Resolved true
  /\ find_app [SamplePlatform.clock] "app://clock" = Some SamplePlatform.clock
  /\ launch SamplePlatform.clock = Returns (OnError "launch failed")
  /\ launch SamplePlatform.clock <> Returns (OnSuccess ()).
Proof. vm_compute. repeat split; discriminate. Qed.

Lemma launch_found_true (installed : list App) (appOrigin : string) :
  launch_found installed appOrigin = Resolved true ->
  exists targetApp signal,
    find_app installed appOrigin = Some targetApp
    /\ launch targetApp = Returns signal.
Proof.
  unfold launch_found. intros H.
  destruct (find_app installed appOrigin) as [app|]; [|discriminate].
  destruct (launch app) as [err|signal] eqn:El; [discriminate|].
  eauto.
Qed.

(** C7, amended. [launchApp] resolves to false when app management is
    unavailable and when the lookup of installed apps succeeds without a
    match; it resolves to true when that lookup succeeds, an installed app
    matches and the call of its [launch()] returns, whatever the launch
    request signals later, and in no other case. *)
Theorem launchApp_resolution (nav : Navigator) (a : API)
    (appOrigin : string) :
  (apps (capabilities a) = false ->
   launchApp nav a appOrigin = Resolved false)
  /\ (forall p installed,
        apps (capabilities a) = true -> mozApps nav = Some p ->
        getInstalled p = Returns (OnSuccess installed) ->
        find_app installed appOrigin = None ->
        launchApp nav a appOrigin = Resolved false)
  /\ (forall p installed targetApp signal,
        apps (capabilities a) = true -> mozApps nav = Some p ->
        getInstalled p = Returns (OnSuccess installed) ->
        find_app installed appOrigin = Some targetApp ->
        launch targetApp = Returns signal ->
        launchApp nav a appOrigin = Resolved true)
  /\ (launchApp nav a appOrigin = Resolved true ->
      exists p installed targetApp signal,
        apps (capabilities a) = true /\ mozApps nav = Some p
        /\ getInstalled p = Returns (OnSuccess installed)
        /\ find_app installed appOrigin = Some targetApp
        /\ launch targetApp = Returns signal).
Proof.
  unfold launchApp. repeat split.
  - intros ->. reflexivity.
  - intros p installed -> -> -> Hf. simpl. unfold launch_found.
    rewrite Hf. reflexivity.
  - intros p installed app signal -> -> -> Hf Hl. simpl. unfold launch_found.
    rewrite Hf, Hl. reflexivity.
  - intros H. destruct (apps (capabilities a)); simpl in H; [|discriminate].
    destruct (mozApps nav) as [p|]; [|discriminate].
    destruct (getInstalled p) as [err|[installed|err|]] eqn:Eg;
      simpl in H; try discriminate.
    destruct (launch_found_true _ _ H) as (app & signal & Hf & Hl).
    exists p, installed, app, signal. auto.
Qed.

Lemma launchApp_resolution_witness :
  launchApp SamplePlatform.tvNavigator SamplePlatform.tvApi "app://clock"
  = Resolved true
  /\ launchApp SamplePlatform.tvNavigator SamplePlatform.tvApi "app://radio"
     = Resolved false.
Proof.
  split.
  - apply (proj1 (proj2 (proj2 (launchApp_resolution
             SamplePlatform.tvNavigator SamplePlatform.tvApi "app://clock"))))
      with (installed := [SamplePlatform.clock])
           (targetApp := SamplePlatform.clock)
           (signal := OnError "launch failed")
           (p := {| getInstalled :=
                      Returns (OnSuccess [SamplePlatform.clock]) |});
      reflexivity.
  - apply (proj1 (proj2 (launchApp_resolution
             SamplePlatform.tvNavigator SamplePlatform.tvApi "app://radio")))
      with (installed := [SamplePlatform.clock])
           (p := {| getInstalled :=
                      Returns (OnSuccess [SamplePlatform.clock]) |});
      reflexivity.
Defined.

End LaunchApp.

Section SystemInfo.
Import Panasonic.

(** With neither [window.panasonic] nor [navigator.mozApps] the
    placeholder record is returned. *)
Lemma getSystemInfo_unavailable_platform (w : Window)
    (nav : FirefoxOS.Navigator) :
  panasonic w = None -> FirefoxOS.mozApps nav = None ->
  getSystemInfo w nav = InfoRecord fallbackInfo.
Proof. unfold getSystemInfo. intros -> ->. reflexivity. Qed.

(** A native answer is preferred, and a throwing native call gives the
    placeholder. *)
Lemma getSystemInfo_native (w : Window) (nav : FirefoxOS.Navigator)
    (native : Native) (answer : Call SystemInfo) :
  panasonic w = Some native -> system_getInfo native = Some answer ->
  getSystemInfo w nav
  = InfoRecord (match answer with
                | Returns info => info
                | Throws _ => fallbackInfo
                end).
Proof.
  unfold getSystemInfo. intros -> Hs. simpl. rewrite Hs.
  destruct answer; reflexivity.
Qed.

Example getSystemInfo_bare_browser :
  getSystemInfo SamplePlatform.bareWindow SamplePlatform.bareNavigator
  = InfoRecord
      {| model := VStr "Unknown Panasonic TV"; version := VStr "1.0";
         platform := "Panasonic TV (Firefox OS-based)"; firefoxOS := false |}.
Proof. reflexivity. Qed.

(** [getFirefoxOSSystemInfo] never rejects. *)
Lemma getFirefoxOSSystemInfo_never_rejects (w : Window) (e : Error) :
  getFirefoxOSSystemInfo w <> Rejected e.
Proof.
  unfold getFirefoxOSSystemInfo.
  destruct (firefoxOSAPI w) as [api|]; [|discriminate].
  destruct (FirefoxOS.getSystemSetting api "deviceinfo.hardware");
    try discriminate.
  destruct (FirefoxOS.getSystemSetting api "deviceinfo.os"); discriminate.
Qed.

(** C5, the code at the failing input. On a television without
    [window.panasonic], with [navigator.mozApps] and a settings provider
    whose request fires [onerror], [getSystemInfo] returns the promise of
    [getFirefoxOSSystemInfo], and that promise resolves to null: the caller
    gets neither a settings-derived record nor the placeholder, and the
    model it displays is undefined. *)
Theorem getSystemInfo_settings_error_gives_null :
  getSystemInfo SamplePlatform.tvWindow SamplePlatform.tvNavigator
  = InfoPromise (Resolved None)
  /\ getSystemInfo SamplePlatform.tvWindow SamplePlatform.tvNavigator
     <> InfoRecord fallbackInfo
  /\ displayed_model
       (getSystemInfo SamplePlatform.tvWindow SamplePlatform.tvNavigator)
     = VUndefined.
Proof. vm_compute. repeat split; discriminate. Qed.

End SystemInfo.

Section KeyRouting.
Import Remote.

Ltac split_codes H :=
  repeat (apply not_elem_of_cons in H; destruct H as [? H]).

(** The codes of [navigationKeys] are suppressed by [handleKeyPress]. *)
Lemma handleKeyPress_navigation_key (code : Z) (h : State) :
  code ∈ navigationKeys ->
  defaultPrevented (handleKeyPress (keydown code) h).1 = true.
Proof.
  intros Hin. unfold handleKeyPress.
  rewrite bool_decide_eq_true_2 by exact Hin. reflexivity.
Qed.

(** A code that [handleKeyPress] has no case for leaves the event as it
    was. *)
Lemma handleKeyPress_unrecognized (code : Z) (h : State) :
  recognizedByRemote code = false ->
  handleKeyPress (keydown code) h = (keydown code, with_isNavigating false h).
Proof.
  unfold recognizedByRemote. intros Hn.
  apply bool_decide_eq_false_1 in Hn. split_codes Hn.
  assert (Hnav : code ∉ navigationKeys).
  { intros Hin. unfold navigationKeys in Hin.
    repeat (apply elem_of_cons in Hin; destruct Hin as [Hin|Hin];
            [congruence|]).
    apply elem_of_nil in Hin. exact Hin. }
  unfold handleKeyPress. rewrite bool_decide_eq_false_2 by exact Hnav.
  simpl.
  repeat match goal with
         | Hne : code <> ?k |- context [code =? ?k] =>
             rewrite (proj2 (Z.eqb_neq code k) Hne)
         end.
  reflexivity.
Qed.

(** With the vendor-key listener installed, each of its codes is
    suppressed, and a code outside both tables is left alone. *)
Lemma handleTVKeys_recognized isTV w confirmed (code : Z) (h : State) :
  recognizedByTV code = true ->
  defaultPrevented
    (Panasonic.handleTVKeys Panasonic.tvKeyCodes isTV w confirmed
       (keydown code) h).1.1 = true.
Proof.
  unfold recognizedByTV. intros Hin. apply bool_decide_eq_true_1 in Hin.
  repeat (apply elem_of_cons in Hin; destruct Hin as [->|Hin];
          [reflexivity|]).
  apply elem_of_nil in Hin. destruct Hin.
Qed.

Lemma handleTVKeys_unrecognized isTV w confirmed (code : Z) (h : State) :
  recognizedByTV code = false ->
  Panasonic.handleTVKeys Panasonic.tvKeyCodes isTV w confirmed
    (keydown code) h = (keydown code, h, []).
Proof.
  unfold recognizedByTV. intros Hn. apply bool_decide_eq_false_1 in Hn.
  split_codes Hn. unfold Panasonic.handleTVKeys. simpl.
  repeat match goal with
         | Hne : code <> ?k |- context [code =? ?k] =>
             rewrite (proj2 (Z.eqb_neq code k) Hne)
         end.
  reflexivity.
Qed.

(** In a TV environment, where both listeners run, every code that one of
    them acts on comes out suppressed. *)
Lemma route_tv_suppresses_recognized w confirmed (code : Z) (h : State) :
  recognizedByRemote code || recognizedByTV code = true ->
  defaultPrevented (route true w confirmed (keydown code) h).1.1 = true.
Proof.
  intros Hrec. apply orb_true_iff in Hrec.
  destruct Hrec as [Hin|Hin]; apply bool_decide_eq_true_1 in Hin;
    repeat (apply elem_of_cons in Hin; destruct Hin as [->|Hin];
            [reflexivity|]);
    apply elem_of_nil in Hin; destruct Hin.
Qed.

(** C4, the code at the failing input. Escape (27) is a code that
    [handleKeyPress] acts on, by running the back navigation, and yet the
    event comes out with its default not suppressed; in browser mode,
    where no vendor-key listener exists, that is the outcome of the whole
    routing. *)
Theorem handleKeyPress_escape_default_not_suppressed (h : State) :
  recognizedByRemote 27 = true
  /\ handleKeyPress (keydown 27) h = (keydown 27, handleBackNavigation h)
  /\ defaultPrevented (handleKeyPress (keydown 27) h).1 = false
  /\ forall w confirmed,
       route false w confirmed (keydown 27) h
       = (keydown 27, handleBackNavigation h, []).
Proof. repeat split. Qed.

End KeyRouting.

(** * Further properties of the navigation handler *)

Section NavigationRoundTrip.
Import Remote.

Lemma setFocus_in_range_state index (h : State) :
  0 <= index < js_length (navItems h) ->
  0 <= currentFocus (setFocus index h) < js_length (navItems (setFocus index h))
  /\ marked (setFocus index h) = [Z.to_nat (currentFocus (setFocus index h))].
Proof.
  intros Hi. rewrite setFocus_length.
  rewrite (proj1 (setFocus_in_range _ _ Hi)), (setFocus_marked _ _ Hi). auto.
Qed.

Lemma navigateRight_in_range (h : State) :
  0 <= currentFocus h < js_length (navItems h) ->
  0 <= currentFocus (navigateRight h) < js_length (navItems (navigateRight h))
  /\ marked (navigateRight h) = [Z.to_nat (currentFocus (navigateRight h))].
Proof.
  intros Hr. unfold navigateRight.
  case_decide; apply (setFocus_in_range_state _ h); lia.
Qed.

Lemma navigateLeft_in_range (h : State) :
  0 <= currentFocus h < js_length (navItems h) ->
  0 <= currentFocus (navigateLeft h) < js_length (navItems (navigateLeft h))
  /\ marked (navigateLeft h) = [Z.to_nat (currentFocus (navigateLeft h))].
Proof.
  intros Hr. unfold navigateLeft.
  case_decide; apply (setFocus_in_range_state _ h); lia.
Qed.

(** X1. Left undoes Right and Right undoes Left: from an index in range,
    either pair of presses ends on the starting index, with that item the
    only marked one. *)
Theorem navigate_left_right_inverse (h : State) :
  0 <= currentFocus h < js_length (navItems h) ->
  currentFocus (navigateLeft (navigateRight h)) = currentFocus h
  /\ currentFocus (navigateRight (navigateLeft h)) = currentFocus h
  /\ marked (navigateLeft (navigateRight h)) = [Z.to_nat (currentFocus h)]
  /\ marked (navigateRight (navigateLeft h)) = [Z.to_nat (currentFocus h)].
Proof.
  intros Hr.
  destruct (navigateRight_in_range h Hr) as [HrR _].
  destruct (navigateLeft_in_range h Hr) as [HrL _].
  assert (HLR : currentFocus (navigateLeft (navigateRight h)) = currentFocus h).
  { rewrite navigateLeft_index by exact HrR.
    rewrite navigateRight_length, navigateRight_index by exact Hr.
    destruct (decide (currentFocus h + 1 < js_length (navItems h))).
    - rewrite (Z.mod_small (currentFocus h + 1)) by lia.
      replace (currentFocus h + 1 - 1 + js_length (navItems h))
        with (currentFocus h + 1 * js_length (navItems h)) by lia.
      rewrite Z_mod_plus_full. apply Z.mod_small. lia.
    - replace (currentFocus h + 1) with (js_length (navItems h)) by lia.
      rewrite Z_mod_same_full.
      replace (0 - 1 + js_length (navItems h))
        with (js_length (navItems h) - 1) by lia.
      rewrite Z.mod_small by lia. lia. }
  assert (HRL : currentFocus (navigateRight (navigateLeft h)) = currentFocus h).
  { rewrite navigateRight_index by exact HrL.
    rewrite navigateLeft_length, navigateLeft_index by exact Hr.
    destruct (decide (currentFocus h > 0)).
    - replace (currentFocus h - 1 + js_length (navItems h))
        with (currentFocus h - 1 + 1 * js_length (navItems h)) by lia.
      rewrite Z_mod_plus_full.
      rewrite (Z.mod_small (currentFocus h - 1)) by lia.
      replace (currentFocus h - 1 + 1) with (currentFocus h) by lia.
      apply Z.mod_small. lia.
    - replace (currentFocus h - 1 + js_length (navItems h))
        with (js_length (navItems h) - 1) by lia.
      rewrite (Z.mod_small (js_length (navItems h) - 1)) by lia.
      replace (js_length (navItems h) - 1 + 1)
        with (js_length (navItems h)) by lia.
      rewrite Z_mod_same_full. lia. }
  repeat split; auto.
  - rewrite (proj2 (navigateLeft_in_range _ HrR)), HLR. reflexivity.
  - rewrite (proj2 (navigateRight_in_range _ HrL)), HRL. reflexivity.
Qed.

Lemma navigate_left_right_inverse_witness :
  currentFocus (navigateLeft (navigateRight Sample.noHome)) = 2
  /\ marked (navigateRight (navigateLeft Sample.handler3)) = [0%nat].
Proof.
  split.
  - apply (navigate_left_right_inverse Sample.noHome).
    vm_compute. intuition discriminate.
  - apply (navigate_left_right_inverse Sample.handler3).
    vm_compute. intuition discriminate.
Defined.

(** X2. With at most one item, Left and Right never move the index: with
    no item at all whatever the index is, with one item from index 0. *)
Theorem navigate_single_or_none (h : State) :
  js_length (navItems h) <= 1 ->
  (navItems h <> [] -> currentFocus h = 0) ->
  currentFocus (navigateLeft h) = currentFocus h
  /\ currentFocus (navigateRight h) = currentFocus h
  /\ js_length (navItems (navigateLeft h)) = js_length (navItems h)
  /\ js_length (navItems (navigateRight h)) = js_length (navItems h).
Proof.
  intros Hlen H0.
  assert (Hcases : navItems h = [] \/
                   (js_length (navItems h) = 1 /\ currentFocus h = 0)).
  { destruct (navItems h) as [|it items] eqn:E; [left; reflexivity|].
    right. split; [|apply H0; discriminate].
    unfold js_length in *. simpl in *. lia. }
  split; [|split; [|split]];
    try apply navigateLeft_length; try apply navigateRight_length.
  - unfold navigateLeft. rewrite (proj1 (playNavigationSound_fields _)).
    destruct Hcases as [He|[H1 Hc]].
    + case_decide; apply setFocus_out_of_range;
        rewrite He; unfold js_length; simpl; lia.
    + case_decide; [lia|].
      rewrite (proj1 (setFocus_in_range (js_length (navItems h) - 1) h
                        ltac:(lia))). lia.
  - unfold navigateRight. rewrite (proj1 (playNavigationSound_fields _)).
    destruct Hcases as [He|[H1 Hc]].
    + case_decide; apply setFocus_out_of_range;
        rewrite He in *; unfold js_length in *; simpl in *; lia.
    + case_decide; [lia|].
      rewrite (proj1 (setFocus_in_range 0 h ltac:(lia))). lia.
Qed.

Lemma navigate_single_or_none_witness :
  currentFocus (navigateLeft Sample.emptied) = 2
  /\ currentFocus (navigateRight Sample.emptied) = 2.
Proof.
  pose proof (navigate_single_or_none Sample.emptied) as H.
  split; apply H; vm_compute; intuition discriminate.
Defined.

End NavigationRoundTrip.

Section ContentScopeMoves.
Import Remote ContentKeys.

Lemma js_index_in_range {A : Type} (arr : list A) (i : Z) :
  0 <= i < js_length arr -> exists x, js_index arr i = Some x.
Proof.
  intros Hi. unfold js_index. rewrite decide_True by lia.
  apply lookup_lt_is_Some_2. unfold js_length in Hi. lia.
Qed.

(** One Up or Down inside a scope whose index is in range: no error, the
    index moves by one and is clamped, and input focus is on the element
    at the new index. *)
Lemma navigateContent_clamps d (c : ContentScope) (h : State) :
  scope_ok c ->
  exists c' h' el,
    navigateContent d c h = Some (c', h')
    /\ focusableElements c' = focusableElements c
    /\ contentFocus c'
       = match d with
         | DirUp => Z.max 0 (contentFocus c - 1)
         | DirDown =>
             Z.min (js_length (focusableElements c) - 1) (contentFocus c + 1)
         end
    /\ scope_ok c'
    /\ js_index (focusableElements c) (contentFocus c') = Some el
    /\ activeElement h' = Some el
    /\ currentFocus h' = currentFocus h /\ navItems h' = navItems h.
Proof.
  unfold scope_ok. intros Hok.
  destruct (js_index_in_range (focusableElements c) (contentFocus c) Hok)
    as [old Hold].
  set (cf' := match d with
              | DirUp => Z.max 0 (contentFocus c - 1)
              | DirDown =>
                  Z.min (js_length (focusableElements c) - 1)
                    (contentFocus c + 1)
              end).
  assert (Hcf : 0 <= cf' < js_length (focusableElements c)).
  { subst cf'. destruct d; lia. }
  destruct (js_index_in_range (focusableElements c) cf' Hcf) as [new Hnew].
  unfold navigateContent. rewrite Hold. simpl. fold cf'. rewrite Hnew. simpl.
  eexists _, _, new. repeat split; simpl; auto; lia.
Qed.

Lemma contentKeyDown_ok code (c : ContentScope) (h : State) :
  scope_ok c ->
  exists ev c' h',
    contentKeyDown (keydown code) c h = Some (ev, c', h')
    /\ focusableElements c' = focusableElements c
    /\ scope_ok c'
    /\ currentFocus h' = currentFocus h.
Proof.
  intros Hok. unfold contentKeyDown. simpl.
  destruct (code =? 38).
  { destruct (navigateContent_clamps DirUp c h Hok)
      as (c' & h' & el & -> & Hf & _ & Hok' & _ & _ & Hcur & _).
    simpl. eauto 10. }
  destruct (code =? 40).
  { destruct (navigateContent_clamps DirDown c h Hok)
      as (c' & h' & el & -> & Hf & _ & Hok' & _ & _ & Hcur & _).
    simpl. eauto 10. }
  destruct ((code =? 37) || (code =? 39)).
  - eexists _, _, _.
    split; [reflexivity|]. split; [reflexivity|]. split; [exact Hok|].
    destruct (decide (0 <= currentFocus h < js_length (navItems h))) as [Hr|Hr].
    + apply (setFocus_in_range _ _ Hr).
    + apply setFocus_out_of_range. lia.
  - eauto 10.
Qed.

Lemma contentKeys_ok codes (c : ContentScope) (h : State) :
  scope_ok c ->
  exists c' h',
    contentKeys codes c h = Some (c', h')
    /\ focusableElements c' = focusableElements c
    /\ scope_ok c'
    /\ currentFocus h' = currentFocus h.
Proof.
  revert c h. induction codes as [|code codes IH]; intros c h Hok; simpl.
  - exists c, h. auto.
  - destruct (contentKeyDown_ok code c h Hok)
      as (ev & c1 & h1 & -> & Hf1 & Hok1 & Hcur1). simpl.
    destruct (IH c1 h1 Hok1) as (c2 & h2 & -> & Hf2 & Hok2 & Hcur2).
    exists c2, h2.
    split; [reflexivity|]. split; [congruence|].
    split; [exact Hok2|congruence].
Qed.

Lemma handleTVKeys_keeps_inv codes isTV w confirmed ev (h : State) :
  focus_inv h ->
  focus_inv (Panasonic.handleTVKeys codes isTV w confirmed ev h).1.2.
Proof.
  intros Hinv. unfold Panasonic.handleTVKeys, Panasonic.handleBackButton.
  repeat match goal with
         | |- context [keyCode ev =? ?k] => destruct (keyCode ev =? k)
         end;
    simpl; auto using handleBackNavigation_keeps_inv.
Qed.

Lemma route_keeps_inv isTV w confirmed ev (h : State) :
  focus_inv h -> focus_inv (route isTV w confirmed ev h).1.2.
Proof.
  intros Hinv. unfold route.
  pose proof (handleKeyPress_keeps_inv ev h Hinv) as Hk.
  destruct (handleKeyPress ev h) as [ev1 h1]. simpl in Hk.
  destruct isTV; [|exact Hk].
  apply handleTVKeys_keeps_inv. exact Hk.
Qed.

Lemma dispatchContentKey_ok isTV w confirmed code (c : ContentScope)
    (h : State) :
  scope_ok c ->
  let d := Delivery.dispatchContentKey isTV w confirmed (keydown code) c h in
  Delivery.d_threw d = false
  /\ focusableElements (Delivery.d_scope d) = focusableElements c
  /\ scope_ok (Delivery.d_scope d)
  /\ (focus_inv h -> focus_inv (Delivery.d_handler d)).
Proof.
  intros Hok. unfold Delivery.dispatchContentKey.
  destruct (contentKeyDown_ok code c h Hok)
    as (ev & c1 & h1 & Hk & Hf & Hok1 & _).
  rewrite Hk.
  pose proof (route_keeps_inv isTV w confirmed ev h1) as Hr.
  destruct (route isTV w confirmed ev h1) as [[ev2 h2] out]. simpl in *.
  split; [reflexivity|]. split; [exact Hf|]. split; [exact Hok1|].
  intros Hinv. apply Hr. eapply contentKeyDown_keeps_inv; eauto.
Qed.

Lemma dispatchContentKeys_ok isTV w confirmed codes (c : ContentScope)
    (h : State) :
  scope_ok c ->
  exists c' h',
    Delivery.dispatchContentKeys isTV w confirmed codes c h = (c', h', false)
    /\ focusableElements c' = focusableElements c
    /\ scope_ok c'
    /\ (focus_inv h -> focus_inv h').
Proof.
  revert c h. induction codes as [|code codes IH]; intros c h Hok.
  - exists c, h. simpl. auto.
  - destruct (dispatchContentKey_ok isTV w confirmed code c h Hok)
      as (Ht & Hf & Hok1 & Hinv1).
    cbn [Delivery.dispatchContentKeys].
    destruct (IH _ (Delivery.d_handler
                      (Delivery.dispatchContentKey isTV w confirmed
                         (keydown code) c h)) Hok1)
      as (c2 & h2 & Hk & Hf2 & Hok2 & Hinv2).
    rewrite Hk, Ht. exists c2, h2.
    split; [reflexivity|]. split; [congruence|]. split; [exact Hok2|].
    auto.
Qed.

(** X3. A scope installed by [enableContentNavigation] survives any
    sequence of keys delivered to its elements, each key running the
    scope's listener and then the listeners of the document: the scope's
    listener never throws, the scope keeps its elements and its index
    stays within them, and the parent keeps the focus invariant. *)
Theorem content_scope_keys_are_safe (isTV : bool) (w : Panasonic.Window)
    (confirmed : bool) contentElement (h : State) (codes : list Z)
    (c : ContentScope) :
  (enableContentNavigation contentElement h).1 = Some c ->
  exists c' h',
    Delivery.dispatchContentKeys isTV w confirmed codes c
      (enableContentNavigation contentElement h).2 = (c', h', false)
    /\ focusableElements c' = focusableElements c
    /\ 0 <= contentFocus c' < js_length (focusableElements c')
    /\ (focus_inv h -> focus_inv h').
Proof.
  intros Hc.
  assert (Hok : scope_ok c).
  { destruct contentElement as [[|first rest]|]; simpl in Hc;
      try discriminate.
    inversion Hc; subst. unfold scope_ok, js_length. simpl. lia. }
  destruct (dispatchContentKeys_ok isTV w confirmed codes c
              (enableContentNavigation contentElement h).2 Hok)
    as (c' & h' & Hk & Hf & Hok' & Hinv).
  exists c', h'. split; [exact Hk|]. split; [exact Hf|].
  split; [apply Hok'|].
  intros Hh. apply Hinv.
  destruct (enableContentNavigation_index contentElement h) as [Hcur Hitems].
  eapply focus_inv_fields; eauto.
Qed.

Lemma content_scope_keys_are_safe_witness :
  exists c' h',
    Delivery.dispatchContentKeys true SamplePlatform.tvWindow false
      [40; 40; 40; 38; 13; 37; 461; 27]
      {| focusableElements := [20%nat; 21%nat]; contentFocus := 0 |}
      (enableContentNavigation (Some [20%nat; 21%nat]) Sample.noHome).2
    = (c', h', false)
    /\ focusableElements c' = [20%nat; 21%nat]
    /\ 0 <= contentFocus c' < js_length (focusableElements c')
    /\ (focus_inv Sample.noHome -> focus_inv h').
Proof.
  apply (content_scope_keys_are_safe true SamplePlatform.tvWindow false
           (Some [20%nat; 21%nat]) Sample.noHome).
  reflexivity.
Defined.

Lemma contentKeys_down (k : nat) (c : ContentScope) (h : State) :
  scope_ok c ->
  exists c' h',
    contentKeys (replicate k 40) c h = Some (c', h')
    /\ focusableElements c' = focusableElements c
    /\ contentFocus c'
       = Z.min (js_length (focusableElements c) - 1)
           (contentFocus c + Z.of_nat k).
Proof.
  revert c h. induction k as [|k IH]; intros c h Hok.
  - simpl. exists c, h. unfold scope_ok in Hok. repeat split; auto. lia.
  - destruct (navigateContent_clamps DirDown c h Hok)
      as (c1 & h1 & el & Hn & Hf1 & Hcf1 & Hok1 & _).
    destruct (IH c1 h1 Hok1) as (c2 & h2 & Hk & Hf2 & Hcf2).
    exists c2, h2.
    change (replicate (S k) 40) with (40 :: replicate k 40).
    cbn [contentKeys]. unfold contentKeyDown. simpl. rewrite Hn. simpl.
    rewrite Hk. repeat split; [congruence|].
    rewrite Hcf2, Hf1, Hcf1. unfold scope_ok in Hok. lia.
Qed.

Lemma contentKeys_up (k : nat) (c : ContentScope) (h : State) :
  scope_ok c ->
  exists c' h',
    contentKeys (replicate k 38) c h = Some (c', h')
    /\ focusableElements c' = focusableElements c
    /\ contentFocus c' = Z.max 0 (contentFocus c - Z.of_nat k).
Proof.
  revert c h. induction k as [|k IH]; intros c h Hok.
  - simpl. exists c, h. unfold scope_ok in Hok. repeat split; auto. lia.
  - destruct (navigateContent_clamps DirUp c h Hok)
      as (c1 & h1 & el & Hn & Hf1 & Hcf1 & Hok1 & _).
    destruct (IH c1 h1 Hok1) as (c2 & h2 & Hk & Hf2 & Hcf2).
    exists c2, h2.
    change (replicate (S k) 38) with (38 :: replicate k 38).
    cbn [contentKeys]. unfold contentKeyDown. simpl. rewrite Hn. simpl.
    rewrite Hk. repeat split; [congruence|].
    rewrite Hcf2, Hcf1. unfold scope_ok in Hok. lia.
Qed.

(** X4. Inside a scope of m elements with its index at j, k presses of
    Down end on index min(m - 1, j + k) and k presses of Up on
    max(0, j - k): the index saturates at either end and never wraps. *)
Theorem content_scope_saturates (k : nat) (c : ContentScope) (h : State) :
  0 <= contentFocus c < js_length (focusableElements c) ->
  (exists c' h',
     contentKeys (replicate k 40) c h = Some (c', h')
     /\ contentFocus c'
        = Z.min (js_length (focusableElements c) - 1)
            (contentFocus c + Z.of_nat k))
  /\ (exists c' h',
        contentKeys (replicate k 38) c h = Some (c', h')
        /\ contentFocus c' = Z.max 0 (contentFocus c - Z.of_nat k)).
Proof.
  intros Hok. split.
  - destruct (contentKeys_down k c h Hok) as (c' & h' & Hk & _ & Hcf). eauto.
  - destruct (contentKeys_up k c h Hok) as (c' & h' & Hk & _ & Hcf). eauto.
Qed.

Lemma content_scope_saturates_witness :
  exists c' h',
    contentKeys (replicate 5 40)
      {| focusableElements := [20%nat; 21%nat; 22%nat]; contentFocus := 0 |}
      Sample.handler3 = Some (c', h')
    /\ contentFocus c' = 2.
Proof.
  apply (content_scope_saturates 5
           {| focusableElements := [20%nat; 21%nat; 22%nat];
              contentFocus := 0 |} Sample.handler3).
  vm_compute. intuition discriminate.
Defined.

(** X5. An Up or Down inside a scope leaves input focus on the scope's
    element at the new index, and touches neither the parent's index nor
    its items. *)
Theorem content_move_focuses_element d (c : ContentScope) (h : State) :
  0 <= contentFocus c < js_length (focusableElements c) ->
  exists c' h' el,
    navigateContent d c h = Some (c', h')
    /\ js_index (focusableElements c') (contentFocus c') = Some el
    /\ activeElement h' = Some el
    /\ currentFocus h' = currentFocus h
    /\ navItems h' = navItems h.
Proof.
  intros Hok.
  destruct (navigateContent_clamps d c h Hok)
    as (c' & h' & el & Hn & Hf & _ & _ & Hel & Hact & Hcur & Hitems).
  exists c', h', el. rewrite Hf. auto.
Qed.

Lemma content_move_focuses_element_witness :
  exists c' h' el,
    navigateContent DirDown
      {| focusableElements := [20%nat; 21%nat; 22%nat]; contentFocus := 0 |}
      Sample.handler3 = Some (c', h')
    /\ js_index (focusableElements c') (contentFocus c') = Some el
    /\ activeElement h' = Some el
    /\ currentFocus h' = currentFocus Sample.handler3
    /\ navItems h' = navItems Sample.handler3.
Proof.
  apply (content_move_focuses_element DirDown
           {| focusableElements := [20%nat; 21%nat; 22%nat];
              contentFocus := 0 |} Sample.handler3).
  vm_compute. intuition discriminate.
Defined.

End ContentScopeMoves.

Section InputFocus.
Import Remote ContentKeys.

(** Blurring a list of elements: the focus is dropped or kept, and none
    of the blurred elements has it afterwards. *)
Lemma blur_all (els : list ElemId) (act : option ElemId) :
  let r := foldl (fun a e => blur e a) act els in
  (r = None \/ r = act) /\ (forall e, e ∈ els -> r <> Some e)
  /\ ((forall e, e ∈ els -> act <> Some e) -> r = act).
Proof.
  revert act. induction els as [|e els IH]; intros act; simpl.
  - repeat split; auto. intros e He. apply elem_of_nil in He. destruct He.
  - destruct (IH (blur e act)) as (Hkeep & Hnot & Hsame).
    assert (Hb : (blur e act = None \/ blur e act = act)
                 /\ blur e act <> Some e).
    { unfold blur. case_decide; split; auto; congruence. }
    destruct Hb as [Hb Hbe]. repeat split.
    + destruct Hkeep as [->| ->]; auto.
    + intros x Hx. apply elem_of_cons in Hx. destruct Hx as [->|Hx]; auto.
      destruct Hkeep as [->| ->]; [discriminate|exact Hbe].
    + intros Hall. rewrite Hsame.
      * unfold blur. rewrite decide_False; auto.
        apply Hall. apply elem_of_cons. auto.
      * intros x Hx. unfold blur. case_decide; [discriminate|].
        apply Hall. apply elem_of_cons. auto.
Qed.

Lemma foldl_blurButton (items : list NavItem) (act : option ElemId) :
  foldl blurButton act items
  = foldl (fun a e => blur e a) act (navButtons items).
Proof.
  revert act. induction items as [|it items IH]; intros act; [reflexivity|].
  unfold navButtons. simpl. unfold blurButton at 2.
  destruct (navButton it) as [b|]; simpl; apply IH.
Qed.

Lemma js_index_unmark_button (items : list NavItem) (i : Z) :
  js_index (unmark <$> items) i ≫= navButton
  = js_index items i ≫= navButton.
Proof.
  unfold js_index. case_decide; [|reflexivity].
  rewrite list_lookup_fmap. destruct (items !! Z.to_nat i); reflexivity.
Qed.

(** X6. After [setFocus(index)]: when the index is in range and its item
    has a button, that button holds input focus; in every other case no
    button of any navigation item holds it. *)
Theorem setFocus_input_focus (index : Z) (h : State) :
  (forall button,
     0 <= index < js_length (navItems h) ->
     js_index (navItems h) index ≫= navButton = Some button ->
     activeElement (setFocus index h) = Some button)
  /\ (index < 0 \/ index >= js_length (navItems h)
      \/ js_index (navItems h) index ≫= navButton = None ->
      forall button,
        button ∈ navButtons (navItems h) ->
        activeElement (setFocus index h) <> Some button).
Proof.
  pose proof (blur_all (navButtons (navItems h)) (activeElement h)) as Hblur.
  simpl in Hblur. rewrite <- foldl_blurButton in Hblur.
  destruct Hblur as (_ & Hnot & _).
  unfold setFocus. split.
  - intros b Hr Hb. rewrite decide_True by lia. simpl.
    rewrite js_index_unmark_button, Hb. reflexivity.
  - intros Hcase b Hin.
    destruct (decide (index >= 0 /\ index < js_length (navItems h)))
      as [Hr|Hr]; simpl.
    + destruct Hcase as [Hc|[Hc|Hc]]; try lia.
      rewrite js_index_unmark_button, Hc. apply Hnot. exact Hin.
    + apply Hnot. exact Hin.
Qed.

Lemma setFocus_input_focus_witness :
  activeElement (setFocus 1 Sample.handler3) = Some 11%nat
  /\ activeElement (setFocus 2 Sample.handler3) <> Some 10%nat.
Proof.
  split.
  - apply (proj1 (setFocus_input_focus 1 Sample.handler3)).
    + vm_compute. intuition discriminate.
    + reflexivity.
  - apply (proj2 (setFocus_input_focus 2 Sample.handler3)).
    + right. right. reflexivity.
    + vm_compute. apply elem_of_cons. left. reflexivity.
Defined.

(** X7. [disableContentNavigation] takes input focus away from every
    element of the content region, keeps it where it was when it was
    elsewhere, and leaves the parent's index and items alone. *)
Theorem disableContentNavigation_blurs (els : list ElemId) (h : State) :
  (forall e, e ∈ els ->
     activeElement (disableContentNavigation (Some els) h) <> Some e)
  /\ ((forall e, e ∈ els -> activeElement h <> Some e) ->
      activeElement (disableContentNavigation (Some els) h) = activeElement h)
  /\ currentFocus (disableContentNavigation (Some els) h) = currentFocus h
  /\ navItems (disableContentNavigation (Some els) h) = navItems h.
Proof.
  destruct (blur_all els (activeElement h)) as (_ & Hnot & Hsame).
  repeat split; auto.
Qed.

Lemma disableContentNavigation_blurs_witness :
  activeElement
    (disableContentNavigation (Some [20%nat; 21%nat]) Sample.handler3)
  = activeElement Sample.handler3.
Proof.
  apply (proj1 (proj2 (disableContentNavigation_blurs
                         [20%nat; 21%nat] Sample.handler3))).
  intros e He. vm_compute. intros Heq. inversion Heq; subst.
  repeat (apply elem_of_cons in He; destruct He as [He|He];
          [discriminate|]).
  apply elem_of_nil in He. exact He.
Defined.

End InputFocus.

Section ResetAndKeys.
Import Remote Engine.

(** X8. [reset()] with a non-empty result of the item query puts the
    index at 0, marks the first item only, whatever markers the page
    carried, and clears [isNavigating]; with an empty result the item list
    becomes empty and the index keeps its old, now stale, value. *)
Theorem reset_restarts_at_first_item (found : list NavItem) (h : State) :
  (found <> [] ->
   currentFocus (reset found h) = 0
   /\ navItems (reset found h) = alter mark 0%nat (unmark <$> found)
   /\ marked (reset found h) = [0%nat])
  /\ (found = [] ->
      navItems (reset found h) = []
      /\ currentFocus (reset found h) = currentFocus h)
  /\ isNavigating (reset found h) = false.
Proof.
  unfold reset, setInitialFocus, updateNavItems. simpl.
  split; [|split; [|reflexivity]].
  - intros Hne.
    assert (Hlen : 0 <= 0 < js_length (navItems (with_navItems found h))).
    { simpl. unfold js_length. destruct found; [congruence|simpl; lia]. }
    rewrite decide_True by (simpl in *; lia).
    split; [|split].
    + apply (setFocus_in_range 0 _ Hlen).
    + apply (setFocus_in_range 0 _ Hlen).
    + apply (setFocus_marked 0 _ Hlen).
  - intros ->. rewrite decide_False by (unfold js_length; simpl; lia).
    split; reflexivity.
Qed.

Lemma reset_restarts_at_first_item_witness :
  currentFocus (reset Sample.items3 Sample.noHome) = 0
  /\ currentFocus (reset [] Sample.noHome) = 2.
Proof.
  split.
  - apply (proj1 (reset_restarts_at_first_item Sample.items3 Sample.noHome)).
    discriminate.
  - apply (proj1 (proj2 (reset_restarts_at_first_item [] Sample.noHome))).
    reflexivity.
Defined.

Lemma setFocus_isNavigating index (h : State) :
  isNavigating (setFocus index h) = isNavigating h.
Proof. unfold setFocus. case_decide; reflexivity. Qed.

Lemma navigateLeft_isNavigating (h : State) :
  isNavigating (navigateLeft h) = isNavigating h.
Proof. unfold navigateLeft. case_decide; apply setFocus_isNavigating. Qed.

Lemma navigateRight_isNavigating (h : State) :
  isNavigating (navigateRight h) = isNavigating h.
Proof. unfold navigateRight. case_decide; apply setFocus_isNavigating. Qed.

Lemma activateCurrentItem_isNavigating (h : State) :
  isNavigating (activateCurrentItem h) = isNavigating h.
Proof.
  unfold activateCurrentItem.
  destruct (js_index (navItems h) (currentFocus h)) as [it|]; auto.
  destruct (navButton it); reflexivity.
Qed.

Lemma handleBackNavigation_isNavigating (h : State) :
  isNavigating (handleBackNavigation h) = isNavigating h.
Proof.
  unfold handleBackNavigation. destruct (homeBtn h); auto.
  rewrite setFocus_isNavigating. reflexivity.
Qed.

(** What [handleKeyPress] runs for each code it has a case for. *)
Lemma handleKeyPress_dispatch (h : State) :
  (handleKeyPress (keydown 37) h).2 = navigateLeft (with_isNavigating true h)
  /\ (handleKeyPress (keydown 38) h).2 = navigateUp (with_isNavigating true h)
  /\ (handleKeyPress (keydown 39) h).2
     = navigateRight (with_isNavigating true h)
  /\ (handleKeyPress (keydown 40) h).2
     = navigateDown (with_isNavigating true h)
  /\ (handleKeyPress (keydown 13) h).2
     = activateCurrentItem (with_isNavigating true h)
  /\ (handleKeyPress (keydown 32) h).2
     = activateCurrentItem (with_isNavigating true h)
  /\ (handleKeyPress (keydown 27) h).2 = handleBackNavigation h.
Proof. repeat split. Qed.

(** X9. After [handleKeyPress], [isNavigating] tells whether the key was
    one of the six navigation keys, for every code but Escape (27); Escape
    runs the back navigation and leaves the flag as it was. *)
Theorem handleKeyPress_isNavigating (code : Z) (h : State) :
  (code <> 27 ->
   isNavigating (handleKeyPress (keydown code) h).2
   = bool_decide (code ∈ navigationKeys))
  /\ (code = 27 ->
      isNavigating (handleKeyPress (keydown code) h).2 = isNavigating h).
Proof.
  destruct (handleKeyPress_dispatch h)
    as (H37 & H38 & H39 & H40 & H13 & H32 & H27).
  split.
  - intros Hne.
    destruct (bool_decide (code ∈ navigationKeys)) eqn:Hnav.
    + apply bool_decide_eq_true_1 in Hnav. unfold navigationKeys in Hnav.
      repeat (apply elem_of_cons in Hnav; destruct Hnav as [->|Hnav];
              [ first [rewrite H37 | rewrite H38 | rewrite H39
                      | rewrite H40 | rewrite H13 | rewrite H32];
                rewrite ?navigateLeft_isNavigating,
                  ?navigateRight_isNavigating,
                  ?activateCurrentItem_isNavigating;
                reflexivity |]).
      apply elem_of_nil in Hnav. destruct Hnav.
    + rewrite handleKeyPress_unrecognized; [reflexivity|].
      apply bool_decide_eq_false_1 in Hnav. unfold navigationKeys in Hnav.
      unfold recognizedByRemote. apply bool_decide_eq_false_2.
      intros Hin. apply Hnav.
      do 6 (apply elem_of_cons in Hin; destruct Hin as [->|Hin];
            [solve [repeat constructor]|]).
      apply elem_of_cons in Hin. destruct Hin as [->|Hin]; [congruence|].
      apply elem_of_nil in Hin. destruct Hin.
  - intros ->. rewrite H27. apply handleBackNavigation_isNavigating.
Qed.

Lemma handleKeyPress_isNavigating_witness :
  isNavigating (handleKeyPress (keydown 39) Sample.handler3).2 = true
  /\ isNavigating (handleKeyPress (keydown 65) Sample.handler3).2 = false
  /\ isNavigating
       (handleKeyPress (keydown 27)
          (handleKeyPress (keydown 39) Sample.handler3).2).2 = true.
Proof.
  split; [|split].
  - apply (proj1 (handleKeyPress_isNavigating 39 Sample.handler3)).
    discriminate.
  - apply (proj1 (handleKeyPress_isNavigating 65 Sample.handler3)).
    discriminate.
  - etransitivity.
    + apply (proj2 (handleKeyPress_isNavigating 27
                      (handleKeyPress (keydown 39) Sample.handler3).2)).
      reflexivity.
    + reflexivity.
Defined.

Lemma elem_of_markedFrom (k i : nat) (items : list NavItem) :
  i ∈ markedFrom k items ->
  exists it, items !! (i - k)%nat = Some it /\ classActive it = true
             /\ (k <= i)%nat.
Proof.
  revert k. induction items as [|it items IH]; intros k Hin; simpl in Hin.
  - apply elem_of_nil in Hin. destruct Hin.
  - assert (Hrest : i ∈ markedFrom (S k) items ->
              exists it', (it :: items) !! (i - k)%nat = Some it'
                          /\ classActive it' = true /\ (k <= i)%nat).
    { intros H. destruct (IH _ H) as (it' & Hl & Ha & Hk).
      exists it'. replace (i - k)%nat with (S (i - S k)) by lia.
      simpl. repeat split; auto. lia. }
    destruct (classActive it) eqn:Ha; [|auto].
    apply elem_of_cons in Hin. destruct Hin as [->|Hin]; [|auto].
    exists it. rewrite Nat.sub_diag. simpl. auto.
Qed.

(** X10. When the focus invariant holds on a non-empty item list,
    [activateCurrentItem] acts on the marked item: it clicks that item's
    button after the selection sound, or does nothing when the item has no
    button; the index, the items and input focus are not touched. *)
Theorem activate_clicks_marked_item (h : State) :
  focus_inv h -> navItems h <> [] ->
  exists it,
    navItems h !! Z.to_nat (currentFocus h) = Some it
    /\ classActive it = true
    /\ effects (activateCurrentItem h)
       = match navButton it with
         | Some button => effects h ++ [SelectionSound; Click button]
         | None => effects h
         end
    /\ currentFocus (activateCurrentItem h) = currentFocus h
    /\ navItems (activateCurrentItem h) = navItems h
    /\ activeElement (activateCurrentItem h) = activeElement h.
Proof.
  intros Hinv Hne. destruct (Hinv Hne) as [Hr Hm].
  assert (Hin : Z.to_nat (currentFocus h) ∈ marked h).
  { rewrite Hm. apply elem_of_cons. auto. }
  destruct (elem_of_markedFrom _ _ _ Hin) as (it & Hl & Ha & _).
  rewrite Nat.sub_0_r in Hl.
  exists it. split; [exact Hl|]. split; [exact Ha|].
  unfold activateCurrentItem, js_index.
  rewrite decide_True by lia. rewrite Hl.
  destruct (navButton it); simpl; rewrite <- ?app_assoc; auto.
Qed.

Lemma activate_clicks_marked_item_witness :
  exists it,
    navItems Sample.noHome !! Z.to_nat (currentFocus Sample.noHome) = Some it
    /\ classActive it = true
    /\ effects (activateCurrentItem Sample.noHome)
       = match navButton it with
         | Some button => effects Sample.noHome ++ [SelectionSound; Click button]
         | None => effects Sample.noHome
         end
    /\ currentFocus (activateCurrentItem Sample.noHome)
       = currentFocus Sample.noHome
    /\ navItems (activateCurrentItem Sample.noHome) = navItems Sample.noHome
    /\ activeElement (activateCurrentItem Sample.noHome)
       = activeElement Sample.noHome.
Proof.
  apply (activate_clicks_marked_item Sample.noHome).
  - intros _. split; [vm_compute; intuition discriminate | reflexivity].
  - discriminate.
Defined.

(** X11. In every state the handler reaches from its constructor, through
    any sequence of engine operations, the snapshot of
    [getNavigationState()] with at least one item has its index within
    the item count. *)
Theorem navigation_state_in_bounds (found : list NavItem)
    (act home : option ElemId) (ops : list Op) :
  let ns := getNavigationState (handler (run ops (start found act home))) in
  ns_totalItems ns > 0 -> 0 <= ns_currentFocus ns < ns_totalItems ns.
Proof.
  intros ns Hpos. subst ns. unfold getNavigationState in *. simpl in *.
  apply (focus_invariant_reachable found act home ops).
  intros He. rewrite He in Hpos. unfold js_length in Hpos. simpl in Hpos. lia.
Qed.

Lemma navigation_state_in_bounds_witness :
  0 <= ns_currentFocus
         (getNavigationState
            (handler (run [MoveLeft; KeyDown 39; Reset Sample.items3; MoveLeft]
                        (start Sample.items3 None None))))
    < 3.
Proof.
  apply (navigation_state_in_bounds Sample.items3 None None
           [MoveLeft; KeyDown 39; Reset Sample.items3; MoveLeft]).
  vm_compute. reflexivity.
Defined.

End ResetAndKeys.

(** * Further properties of the platform files *)

Section VendorKeys.
Import Panasonic.

Ltac no_such_effect H :=
  exfalso;
  repeat (apply elem_of_cons in H; destruct H as [H|H]; [discriminate|]);
  apply elem_of_nil in H; exact H.

(** X12. Whatever the key table, [handleTVKeys] changes the remote-control
    handler only for the BACK code, where it runs the back navigation; it
    closes the window or leaves the page only for the EXIT code and only
    after the user confirmed, and closes the window only in a TV
    environment that has [window.close]. *)
Theorem handleTVKeys_back_and_exit_only (codes : TvKeyCodes) (isTV : bool)
    (w : Window) (confirmed : bool) (event : KeyEvent) (h : Remote.State) :
  let '(_, h', out) := handleTVKeys codes isTV w confirmed event h in
  (keyCode event <> BACK codes -> h' = h)
  /\ (h' = h \/ h' = Remote.handleBackNavigation h)
  /\ (WindowClose ∈ out \/ LocationBlank ∈ out ->
      confirmed = true /\ keyCode event = EXIT codes)
  /\ (WindowClose ∈ out -> isTV = true /\ hasClose w = true).
Proof.
  unfold handleTVKeys, handleBackButton, handleExitButton.
  repeat match goal with
         | |- context [keyCode event =? ?k] =>
             destruct (Z.eqb_spec (keyCode event) k)
         end;
    (split; [intros Hb; first [reflexivity | congruence]|]);
    (split; [auto|]);
    destruct confirmed, isTV, (hasClose w); simpl;
    (split; [intros [H|H] | intros H]);
    first [ split; first [reflexivity | assumption] | no_such_effect H ].
Qed.

Lemma handleTVKeys_back_and_exit_only_witness :
  (handleTVKeys tvKeyCodes true SamplePlatform.tvWindow false
     (keydown 27) Sample.noHome).1.2 = Sample.noHome.
Proof.
  pose proof (handleTVKeys_back_and_exit_only tvKeyCodes true
                SamplePlatform.tvWindow false (keydown 27) Sample.noHome) as H.
  destruct (handleTVKeys tvKeyCodes true SamplePlatform.tvWindow false
              (keydown 27) Sample.noHome) as [[ev h'] out].
  apply H. simpl. discriminate.
Defined.

End VendorKeys.

Section Simulation.
Import Panasonic TvInit.

(** X13. The constructor installs either the vendor-key listener, and
    then the key table is set, or the Alt+digit simulation listener, and
    then the table is unset, never both; so wherever the simulation
    listener exists, each of Alt+1 .. Alt+4 ends in a TypeError before
    [handleTVKeys] runs, while any other key and any key without Alt does
    nothing. *)
Theorem simulation_chords_never_reach_handler (detected : bool) (w : Window)
    (nav : FirefoxOS.Navigator) (confirmed : bool) (h : Remote.State) :
  let t := construct detected w nav in
  tvKeysListener t = detected
  /\ simulationListener t = negb detected
  /\ (this_tvKeyCodes t = None <-> simulationListener t = true)
  /\ (simulationListener t = true ->
      forall key,
        (key ∈ ["1"; "2"; "3"; "4"] ->
         simulatedKey t w confirmed true key h = None)
        /\ (key ∉ ["1"; "2"; "3"; "4"] ->
            simulatedKey t w confirmed true key h = Some (h, []))
        /\ simulatedKey t w confirmed false key h = Some (h, [])).
Proof.
  unfold construct, init, initTVSpecificFeatures, initBrowserFallbacks.
  destruct detected; simpl.
  - destruct (bool_decide (is_Some (FirefoxOS.mozApps nav))
              && bool_decide (is_Some (firefoxOSAPI w))); simpl;
      (split; [reflexivity|]); (split; [reflexivity|]);
      (split; [split; discriminate | discriminate]).
  - split; [reflexivity|]. split; [reflexivity|].
    split; [split; reflexivity|].
    intros _ key. split; [|split].
    + intros Hin.
      repeat (apply elem_of_cons in Hin; destruct Hin as [->|Hin];
              [reflexivity|]).
      apply elem_of_nil in Hin. destruct Hin.
    + intros Hnot.
      repeat (apply not_elem_of_cons in Hnot; destruct Hnot as [? Hnot]).
      unfold simulatedKey. repeat (rewrite decide_False by assumption).
      reflexivity.
    + reflexivity.
Qed.

Lemma simulation_chords_never_reach_handler_witness :
  simulatedKey
    (construct false SamplePlatform.bareWindow SamplePlatform.bareNavigator)
    SamplePlatform.bareWindow true true "1" Sample.handler3 = None.
Proof.
  apply (simulation_chords_never_reach_handler false SamplePlatform.bareWindow
           SamplePlatform.bareNavigator true Sample.handler3).
  - reflexivity.
  - apply elem_of_cons. left. reflexivity.
Defined.

End Simulation.

Section SettingsDerivedInfo.
Import Panasonic.

Lemma js_or_truthy (a b : JSValue) : truthy b = true -> truthy (js_or a b) = true.
Proof. unfold js_or. destruct (truthy a) eqn:E; auto. Qed.

(** X14. [getFirefoxOSSystemInfo] never rejects, and every record it
    resolves to has a truthy model and version (a missing, null, empty or
    zero setting is replaced by the default), the Firefox OS platform
    label and the [firefoxOS] flag; with no settings provider at all the
    record is the one made of the two defaults. *)
Theorem getFirefoxOSSystemInfo_record (w : Window) :
  (forall e, getFirefoxOSSystemInfo w <> Rejected e)
  /\ (forall info,
        getFirefoxOSSystemInfo w = Resolved (Some info) ->
        truthy (model info) = true /\ truthy (version info) = true
        /\ platform info = "Panasonic TV (Firefox OS)"
        /\ firefoxOS info = true)
  /\ (forall api,
        firefoxOSAPI w = Some api -> FirefoxOS.this_settings api = None ->
        getFirefoxOSSystemInfo w
        = Resolved (Some {| model := VStr "Panasonic TV";
                            version := VStr "1.0";
                            platform := "Panasonic TV (Firefox OS)";
                            firefoxOS := true |})).
Proof.
  split; [intros e; apply getFirefoxOSSystemInfo_never_rejects|].
  unfold getFirefoxOSSystemInfo. split.
  - intros info H.
    destruct (firefoxOSAPI w) as [api|]; [|discriminate].
    destruct (FirefoxOS.getSystemSetting api "deviceinfo.hardware")
      as [deviceInfo| |]; try discriminate.
    destruct (FirefoxOS.getSystemSetting api "deviceinfo.os")
      as [osInfo| |]; try discriminate.
    inversion H; subst; simpl.
    repeat split; apply js_or_truthy; reflexivity.
  - intros api -> Hs. unfold FirefoxOS.getSystemSetting. rewrite Hs.
    reflexivity.
Qed.

Lemma getFirefoxOSSystemInfo_record_witness :
  getFirefoxOSSystemInfo SamplePlatform.bareWindow
  = Resolved (Some {| model := VStr "Panasonic TV";
                      version := VStr "1.0";
                      platform := "Panasonic TV (Firefox OS)";
                      firefoxOS := true |}).
Proof.
  apply (proj2 (proj2 (getFirefoxOSSystemInfo_record SamplePlatform.bareWindow)))
    with (api := FirefoxOS.construct SamplePlatform.bareNavigator);
    reflexivity.
Defined.

(** X15. [getSystemInfo] hands its caller a promise instead of a record
    exactly when [window.panasonic.system] is missing while both
    [navigator.mozApps] and [window.firefoxOSAPI] exist; a native
    [getInfo()] that throws gives the placeholder record without trying the
    Firefox OS path, and so does a platform without [navigator.mozApps],
    whatever settings provider it has. *)
Theorem getSystemInfo_promise_iff (w : Window) (nav : FirefoxOS.Navigator) :
  ((exists p, getSystemInfo w nav = InfoPromise p)
   <-> panasonic w ≫= system_getInfo = None
       /\ is_Some (FirefoxOS.mozApps nav) /\ is_Some (firefoxOSAPI w))
  /\ (forall e,
        panasonic w ≫= system_getInfo = Some (Throws e) ->
        getSystemInfo w nav = InfoRecord fallbackInfo)
  /\ (panasonic w ≫= system_getInfo = None ->
      FirefoxOS.mozApps nav = None ->
      getSystemInfo w nav = InfoRecord fallbackInfo).
Proof.
  unfold getSystemInfo. split; [|split].
  - split.
    + intros [p Hp].
      destruct (panasonic w ≫= system_getInfo) as [[e|info]|];
        try discriminate.
      split; [reflexivity|].
      destruct (bool_decide (is_Some (FirefoxOS.mozApps nav))) eqn:Ha;
        [|discriminate].
      destruct (bool_decide (is_Some (firefoxOSAPI w))) eqn:Hb;
        [|discriminate].
      split; eapply bool_decide_eq_true_1; eassumption.
    + intros (-> & Ha & Hb).
      rewrite !bool_decide_eq_true_2 by assumption. simpl. eauto.
  - intros e ->. reflexivity.
  - intros -> ->. reflexivity.
Qed.

Lemma getSystemInfo_promise_iff_witness :
  exists p,
    getSystemInfo SamplePlatform.tvWindow SamplePlatform.tvNavigator
    = InfoPromise p.
Proof.
  apply (proj1 (getSystemInfo_promise_iff
                  SamplePlatform.tvWindow SamplePlatform.tvNavigator)).
  split; [reflexivity|]. split; eexists; reflexivity.
Defined.

End SettingsDerivedInfo.

Section Construction.
Import FirefoxOS.

Lemma initDeviceStorage_settings (nav : Navigator) (a : API) :
  this_settings (initDeviceStorage nav a) = this_settings a
  /\ capabilities (initDeviceStorage nav a) = capabilities a.
Proof.
  unfold initDeviceStorage.
  destruct (getDeviceStorage nav) as [get|]; auto.
  destruct (get "videos"); auto.
  destruct (get "music"); auto.
  destruct (get "pictures"); auto.
Qed.

Lemma is_Some_bool_decide {A : Type} (o : option A) :
  bool_decide (is_Some o) = match o with Some _ => true | None => false end.
Proof.
  destruct o.
  - apply bool_decide_eq_true_2. eauto.
  - apply bool_decide_eq_false_2. intros [x Hx]. discriminate.
Qed.

Lemma initFirefoxOSFeatures_settings (nav : Navigator) (a : API) :
  capabilities a = getFirefoxOSCapabilities nav ->
  this_settings a = None ->
  this_settings (initFirefoxOSFeatures nav a) = mozSettings nav.
Proof.
  intros Hc Hs. unfold initFirefoxOSFeatures.
  set (a1 := if deviceStorage (capabilities a)
             then initDeviceStorage nav a else a).
  assert (H1 : this_settings a1 = this_settings a
               /\ capabilities a1 = capabilities a).
  { subst a1. destruct (deviceStorage (capabilities a)); auto.
    apply initDeviceStorage_settings. }
  destruct H1 as [Hs1 Hc1]. rewrite Hc1, Hc. simpl.
  rewrite is_Some_bool_decide.
  destruct (mozSettings nav) eqn:E; simpl; congruence.
Qed.

(** X16. After construction the settings handle of the API object is
    exactly [navigator.mozSettings]: present when the navigator has one,
    absent otherwise, whatever happened to the device storages. *)
Theorem construct_settings_handle (nav : Navigator) :
  this_settings (construct nav) = mozSettings nav.
Proof.
  unfold construct. cbn [isFirefoxOS].
  destruct (detectFirefoxOS nav) eqn:Hd.
  - apply initFirefoxOSFeatures_settings; reflexivity.
  - simpl. unfold detectFirefoxOS in Hd.
    rewrite (is_Some_bool_decide (mozSettings nav)) in Hd.
    destruct (mozSettings nav); [|reflexivity].
    rewrite orb_true_r in Hd. discriminate.
Qed.

(** X17. Device storage is detected as a capability from
    [navigator.getDeviceStorage] alone, but the storages are only opened
    when Firefox OS was detected: on a navigator without [mozApps],
    [mozSettings], [mozPower] and the two user-agent marks, the capability
    can be set and still every storage class lists no file. *)
Theorem storage_needs_detection (nav : Navigator) (storageType path : string) :
  detectFirefoxOS nav = false ->
  deviceStorage (capabilities (construct nav))
  = bool_decide (is_Some (getDeviceStorage nav))
  /\ getStorageFiles (construct nav) storageType path = Resolved [].
Proof.
  intros Hd. unfold construct. simpl. rewrite Hd. simpl.
  split; [reflexivity|].
  unfold getStorageFiles, select_storage. simpl.
  repeat case_decide; reflexivity.
Qed.

End Construction.

Lemma storage_needs_detection_witness :
  FirefoxOS.deviceStorage
    (FirefoxOS.capabilities (FirefoxOS.construct SampleStorage.storageOnly))
  = true
  /\ FirefoxOS.getStorageFiles (FirefoxOS.construct SampleStorage.storageOnly)
       "videos" "" = Resolved [].
Proof.
  apply (storage_needs_detection SampleStorage.storageOnly "videos" "").
  reflexivity.
Defined.

Section StorageOpening.
Import FirefoxOS.

Lemma initFirefoxOSFeatures_storages (nav : Navigator) (a : API) :
  deviceStorage (capabilities a) = true ->
  let a' := initFirefoxOSFeatures nav a in
  videoStorage a' = videoStorage (initDeviceStorage nav a)
  /\ musicStorage a' = musicStorage (initDeviceStorage nav a)
  /\ pictureStorage a' = pictureStorage (initDeviceStorage nav a).
Proof.
  intros Hc. unfold initFirefoxOSFeatures. rewrite Hc.
  destruct (settings (capabilities (initDeviceStorage nav a)));
    repeat split; reflexivity.
Qed.

(** X18. The three storages are opened in one guarded block, videos
    first: when Firefox OS is detected and opening the music storage
    throws, the video storage obtained before is kept, and neither the
    music nor the pictures storage is set - the pictures storage is not
    even asked for. *)
Theorem storage_opening_stops_at_first_throw (nav : Navigator)
    (get : string -> Call (option DeviceStorage))
    (v : option DeviceStorage) (e : Error) :
  detectFirefoxOS nav = true ->
  getDeviceStorage nav = Some get ->
  get "videos" = Returns v -> get "music" = Throws e ->
  videoStorage (construct nav) = v
  /\ musicStorage (construct nav) = None
  /\ pictureStorage (construct nav) = None.
Proof.
  intros Hd Hg Hv Hm. unfold construct. cbn [isFirefoxOS]. rewrite Hd.
  match goal with
  | |- context [initFirefoxOSFeatures nav ?a0] =>
      destruct (initFirefoxOSFeatures_storages nav a0) as (-> & -> & ->)
  end.
  - simpl. rewrite Hg. apply bool_decide_eq_true_2. eauto.
  - unfold initDeviceStorage. rewrite Hg, Hv, Hm. simpl. auto.
Qed.

Lemma storage_opening_stops_at_first_throw_witness :
  videoStorage (construct SampleStorage.videosOnly)
  = Some SamplePlatform.videos3
  /\ musicStorage (construct SampleStorage.videosOnly) = None
  /\ pictureStorage (construct SampleStorage.videosOnly) = None.
Proof.
  eapply (storage_opening_stops_at_first_throw SampleStorage.videosOnly);
    reflexivity.
Defined.

End StorageOpening.

Section CursorOutcomes.
Import FirefoxOS.

Lemma drain_resolved (cursor : list CursorStep) (acc files : list FileHandle) :
  drain acc cursor = Resolved files ->
  exists yielded rest,
    cursor = (Item <$> yielded) ++ Done :: rest /\ files = acc ++ yielded.
Proof.
  revert acc. induction cursor as [|step cursor IH]; intros acc H; simpl in H.
  - discriminate.
  - destruct step as [file| |e].
    + destruct (IH _ H) as (yielded & rest & -> & ->).
      exists (file :: yielded), rest. rewrite <- app_assoc. auto.
    + inversion H; subst. exists [], cursor. rewrite app_nil_r. auto.
    + discriminate.
Qed.

Lemma drain_rejected (cursor : list CursorStep) (acc : list FileHandle)
    (e : Error) :
  drain acc cursor = Rejected e ->
  exists yielded rest, cursor = (Item <$> yielded) ++ Failed e :: rest.
Proof.
  revert acc. induction cursor as [|step cursor IH]; intros acc H; simpl in H.
  - discriminate.
  - destruct step as [file| |e'].
    + destruct (IH _ H) as (yielded & rest & ->).
      exists (file :: yielded), rest. reflexivity.
    + discriminate.
    + inversion H; subst. exists [], cursor. reflexivity.
Qed.

Lemma drain_pending (cursor : list CursorStep) (acc : list FileHandle) :
  drain acc cursor = Pending <-> exists yielded, cursor = Item <$> yielded.
Proof.
  revert acc. induction cursor as [|step cursor IH]; intros acc; simpl.
  - split; [exists []; reflexivity | reflexivity].
  - destruct step as [file| |e].
    + rewrite IH. split.
      * intros [yielded ->]. exists (file :: yielded). reflexivity.
      * intros [[|f yielded] Hy]; [discriminate|].
        inversion Hy; subst. eauto.
    + split; [discriminate|]. intros [[|f yielded] Hy]; discriminate.
    + split; [discriminate|]. intros [[|f yielded] Hy]; discriminate.
Qed.

(** X19. What [getStorageFiles] resolves to comes from the provider and
    from nowhere else: a non-empty result is exactly the run of files the
    cursor yielded before it signalled the end, none dropped, added or
    reordered; and the promise stays unsettled exactly when a storage's
    cursor yields files and then stops firing without signalling the
    end. *)
Theorem getStorageFiles_result_origin (a : API) (storageType path : string) :
  (forall files,
     getStorageFiles a storageType path = Resolved files -> files <> [] ->
     exists storage rest,
       select_storage a storageType = Some (Some storage)
       /\ enumerate storage path
          = Returns ((Item <$> files) ++ Done :: rest))
  /\ (getStorageFiles a storageType path = Pending
      <-> exists storage yielded,
            select_storage a storageType = Some (Some storage)
            /\ enumerate storage path = Returns (Item <$> yielded)).
Proof.
  unfold getStorageFiles. split.
  - intros files H Hne.
    destruct (select_storage a storageType) as [[storage|]|];
      try (inversion H; subst; congruence).
    destruct (enumerate storage path) as [e|cursor] eqn:Ec;
      [inversion H; subst; congruence|].
    destruct (drain_resolved _ _ _ H) as (yielded & rest & -> & ->).
    exists storage, rest. auto.
  - split.
    + intros H.
      destruct (select_storage a storageType) as [[storage|]|];
        try discriminate.
      destruct (enumerate storage path) as [e|cursor] eqn:Ec; [discriminate|].
      apply drain_pending in H. destruct H as [yielded ->]. eauto.
    + intros (storage & yielded & -> & ->). apply drain_pending. eauto.
Qed.

Lemma getStorageFiles_result_origin_witness :
  exists storage rest,
    select_storage SamplePlatform.tvApi "videos" = Some (Some storage)
    /\ enumerate storage EmptyString
       = Returns ((Item <$> ["a.mp4"; "b.mp4"; "c.mp4"]) ++ Done :: rest).
Proof.
  apply (proj1 (getStorageFiles_result_origin
                  SamplePlatform.tvApi "videos" EmptyString)).
  - reflexivity.
  - discriminate.
Defined.

End CursorOutcomes.

Section AppLaunch.
Import FirefoxOS.

(** X21. Once the lookup of installed apps has succeeded, [launchApp]
    resolves to false exactly when no installed app has the requested
    origin; otherwise the app launched is the first one with that origin,
    and if its [launch()] throws the promise never settles. *)
Theorem launchApp_after_lookup (nav : Navigator) (a : API)
    (appOrigin : string) (p : AppsProvider) (installed : list App) :
  apps (capabilities a) = true -> mozApps nav = Some p ->
  getInstalled p = Returns (OnSuccess installed) ->
  (launchApp nav a appOrigin = Resolved false
   <-> Forall (fun app => origin app <> appOrigin) installed)
  /\ (forall targetApp,
        find_app installed appOrigin = Some targetApp ->
        origin targetApp = appOrigin
        /\ exists i,
             installed !! i = Some targetApp
             /\ forall j app, installed !! j = Some app -> (j < i)%nat ->
                  origin app <> appOrigin)
  /\ (forall targetApp e,
        find_app installed appOrigin = Some targetApp ->
        launch targetApp = Throws e ->
        launchApp nav a appOrigin = Pending).
Proof.
  intros Ha Hp Hg. unfold launchApp. rewrite Ha, Hp, Hg. simpl.
  unfold launch_found, find_app.
  split; [|split].
  - destruct (list_find (fun app => origin app = appOrigin) installed)
      as [[i app]|] eqn:Ef; simpl.
    + apply list_find_Some in Ef. destruct Ef as (Hi & Ho & _).
      split.
      * destruct (launch app); discriminate.
      * intros Hall. exfalso.
        rewrite Forall_forall in Hall. apply (Hall app); [|exact Ho].
        apply list_elem_of_lookup. eauto.
    + apply list_find_None in Ef. split; auto.
  - intros app Hf.
    destruct (list_find (fun app => origin app = appOrigin) installed)
      as [[i app']|] eqn:Ef; simpl in Hf; [|discriminate].
    inversion Hf; subst. apply list_find_Some in Ef.
    destruct Ef as (Hi & Ho & Hfirst). split; [exact Ho|].
    exists i. split; [exact Hi|]. intros j app' Hj Hlt. eauto.
  - intros app e Hf Hl. rewrite Hf, Hl. reflexivity.
Qed.

Lemma launchApp_after_lookup_witness :
  launchApp SamplePlatform.tvNavigator SamplePlatform.tvApi "app://radio"
  = Resolved false.
Proof.
  apply (proj1 (launchApp_after_lookup SamplePlatform.tvNavigator
                  SamplePlatform.tvApi "app://radio"
                  {| getInstalled := Returns (OnSuccess [SamplePlatform.clock]) |}
                  [SamplePlatform.clock] eq_refl eq_refl eq_refl)).
  repeat constructor. discriminate.
Defined.

End AppLaunch.

Section ViewActivities.
Import Activities.

Lemma prefix_first (c d : Ascii.ascii) (p s : string) :
  String.prefix (String c p) (String d s) = true -> c = d.
Proof.
  simpl. destruct (Ascii.ascii_dec c d); [auto|discriminate].
Qed.

(** X22. The activity handler answers only [view] activities. For a view
    activity with a data object it posts exactly one result, a success,
    after dispatching at most one media event: the video, audio or image
    event when the type starts with that prefix (whatever the order of the
    tests, as the prefixes exclude each other), none for any other or
    missing type. A view activity without data throws before anything is
    posted, and any other activity is ignored. *)
Theorem view_activity_dispatch (type : option string) :
  (exists dispatched,
     onActivity "view" (Some type) = Some (dispatched ++ [PostResult true])
     /\ (length dispatched <= 1)%nat
     /\ (forall t, type = Some t ->
           (String.prefix "video/" t = true ->
            dispatched = [MediaEvent "firefoxos-video" t])
           /\ (String.prefix "audio/" t = true ->
               dispatched = [MediaEvent "firefoxos-audio" t])
           /\ (String.prefix "image/" t = true ->
               dispatched = [MediaEvent "firefoxos-image" t])
           /\ (String.prefix "video/" t = false ->
               String.prefix "audio/" t = false ->
               String.prefix "image/" t = false -> dispatched = []))
     /\ (type = None -> dispatched = []))
  /\ onActivity "view" None = None
  /\ (forall activityName data,
        activityName <> "view" -> onActivity activityName data = Some []).
Proof.
  split; [|split].
  - unfold onActivity. rewrite decide_True by reflexivity.
    unfold handleViewActivity. simpl.
    eexists. split; [reflexivity|].
    destruct type as [t|]; simpl.
    + split.
      { destruct (String.prefix "video/" t), (String.prefix "audio/" t),
          (String.prefix "image/" t); simpl; lia. }
      split; [|discriminate].
      intros t' Ht. inversion Ht; subst t'.
      destruct (String.prefix "video/" t) eqn:Hv.
      { repeat split; auto; try discriminate; intros H; exfalso;
          destruct t as [|c t]; try discriminate;
          apply prefix_first in Hv; apply prefix_first in H; congruence. }
      destruct (String.prefix "audio/" t) eqn:Hau.
      { repeat split; auto; try discriminate; intros H; exfalso;
          destruct t as [|c t]; try discriminate;
          apply prefix_first in Hau; apply prefix_first in H; congruence. }
      destruct (String.prefix "image/" t) eqn:Hi;
        repeat split; auto; discriminate.
    + split; [simpl; lia|]. split; [discriminate|reflexivity].
  - reflexivity.
  - intros name data Hne. unfold onActivity.
    rewrite decide_False by exact Hne. reflexivity.
Qed.

Lemma view_activity_dispatch_witness :
  onActivity "share" (Some (Some "video/mp4")) = Some [].
Proof.
  apply (proj2 (proj2 (view_activity_dispatch None))). discriminate.
Defined.

End ViewActivities.

Section Sections.
Import App.

Lemma visible_hide (p : list Element) : visible (hide <$> p) = [].
Proof.
  unfold visible. induction p as [|el p IH]; [reflexivity|].
  rewrite fmap_cons, filter_cons.
  unfold hide at 1. destruct el as [id [|] act]; simpl; exact IH.
Qed.

Lemma visible_show (p : list Element) (i : nat) (el : Element) :
  p !! i = Some el -> contentSection el = true ->
  visible (alter show i (hide <$> p)) = [el_id el].
Proof.
  revert i. induction p as [|x p IH]; intros i Hi Hc; [discriminate|].
  destruct i as [|i]; simpl in Hi.
  - inversion Hi; subst x.
    change (alter show 0%nat (hide <$> el :: p))
      with (show (hide el) :: (hide <$> p)).
    pose proof (visible_hide p) as Hh. unfold visible in *.
    destruct el as [id c act]. simpl in Hc. subst c.
    rewrite filter_cons, decide_True by reflexivity.
    rewrite fmap_cons, Hh. reflexivity.
  - change (alter show (S i) (hide <$> x :: p))
      with (hide x :: alter show i (hide <$> p)).
    unfold visible. rewrite filter_cons.
    specialize (IH i Hi Hc). unfold visible in IH.
    unfold hide at 1. destruct x as [id [|] act]; simpl; exact IH.
Qed.

Lemma el_id_hide (el : Element) : el_id (hide el) = el_id el.
Proof. unfold hide. destruct (contentSection el); reflexivity. Qed.

Lemma getElementById_hide (p : list Element) (name : string) :
  getElementById (hide <$> p) name
  = prod_map id hide <$> getElementById p name.
Proof.
  unfold getElementById. rewrite list_find_fmap.
  f_equal. apply list_find_ext. intros el. simpl.
  rewrite el_id_hide. reflexivity.
Qed.

(** X23. [showSection] hides every content section before it looks for
    its target: for a name whose section element is missing no content
    section is left visible, while the current section name and the events
    stay as they were. *)
Theorem showSection_missing_target (sectionName : string) (st : State) :
  getElementById (page st) (sectionName +:+ "-section") = None ->
  visible (page (showSection sectionName st)) = []
  /\ currentSection (showSection sectionName st) = currentSection st
  /\ events (showSection sectionName st) = events st.
Proof.
  intros Hnone. unfold showSection.
  rewrite getElementById_hide, Hnone. simpl.
  split; [apply visible_hide|auto].
Qed.

Lemma showSection_missing_target_witness :
  visible (page (showSection "settings" SampleApp.started)) = []
  /\ currentSection (showSection "settings" SampleApp.started) = "home"
  /\ events (showSection "settings" SampleApp.started) = [].
Proof.
  apply (showSection_missing_target "settings" SampleApp.started).
  reflexivity.
Defined.

(** X24. When the target of [showSection] exists and is a content
    section, it is afterwards the one visible content section and the
    current section, whatever was visible before; and the section-change
    event that is dispatched names the new section as the previous one
    too, since the current name is overwritten before the event is
    built. *)
Theorem showSection_existing_target (sectionName : string) (st : State)
    (i : nat) (target : Element) :
  getElementById (page st) (sectionName +:+ "-section") = Some (i, target) ->
  contentSection target = true ->
  visible (page (showSection sectionName st)) = [sectionName +:+ "-section"]
  /\ currentSection (showSection sectionName st) = sectionName
  /\ exists loaded,
       events (showSection sectionName st)
       = events st ++ loaded ++ [SectionChange sectionName sectionName]
       /\ forall ev, ev ∈ loaded -> ev = ContentLoaded sectionName.
Proof.
  intros Hget Hc. unfold showSection.
  rewrite getElementById_hide, Hget. simpl.
  apply list_find_Some in Hget. destruct Hget as (Hi & Hid & _).
  split; [|split; [reflexivity|]].
  - rewrite (visible_show _ _ _ Hi Hc), Hid. reflexivity.
  - exists (loadSectionContent sectionName). split; [reflexivity|].
    unfold loadSectionContent. intros ev Hev.
    case_bool_decide.
    + apply list_elem_of_singleton in Hev. exact Hev.
    + apply elem_of_nil in Hev. destruct Hev.
Qed.

Lemma showSection_existing_target_witness :
  visible (page (showSection "about" SampleApp.started)) = ["about-section"]
  /\ currentSection (showSection "about" SampleApp.started) = "about"
  /\ exists loaded,
       events (showSection "about" SampleApp.started)
       = events SampleApp.started ++ loaded ++ [SectionChange "about" "about"]
       /\ forall ev, ev ∈ loaded -> ev = ContentLoaded "about".
Proof.
  apply (showSection_existing_target "about" SampleApp.started 3%nat
           (mkElement "about-section" true false)); reflexivity.
Defined.

End Sections.

Section ScopeExitDelivery.
Import Remote.

Lemma dispatch_left_handler isTV w confirmed (c : ContentScope) (h : State) :
  Delivery.d_handler
    (Delivery.dispatchContentKey isTV w confirmed (keydown 37) c h)
  = navigateLeft (with_isNavigating true (setFocus (currentFocus h) h)).
Proof. destruct isTV; reflexivity. Qed.

Lemma dispatch_right_handler isTV w confirmed (c : ContentScope) (h : State) :
  Delivery.d_handler
    (Delivery.dispatchContentKey isTV w confirmed (keydown 39) c h)
  = navigateRight (with_isNavigating true (setFocus (currentFocus h) h)).
Proof. destruct isTV; reflexivity. Qed.

(** C8, the code at the failing input. With two or more items and the
    index i in range, a scope is entered and the Left (or Right) key is
    pressed on one of its elements. The scope's listener calls [setFocus]
    on the unchanged index, and the same event then reaches the document
    listener, whose [navigateLeft] (or [navigateRight]) moves the index:
    when the key has been handled the index is (i - 1 + n) mod n (or
    (i + 1) mod n), never the value it had before entry. *)
Theorem content_scope_exit_moves_parent_index (isTV : bool)
    (w : Panasonic.Window) (confirmed : bool) contentElement (h : State)
    (c : ContentScope) :
  let n := js_length (navItems h) in
  let i := currentFocus h in
  let after code :=
    currentFocus
      (Delivery.d_handler
         (Delivery.dispatchContentKey isTV w confirmed (keydown code) c
            (enableContentNavigation contentElement h).2)) in
  (enableContentNavigation contentElement h).1 = Some c ->
  2 <= n -> 0 <= i < n ->
  after 37 = (i - 1 + n) mod n /\ after 37 <> i
  /\ after 39 = (i + 1) mod n /\ after 39 <> i.
Proof.
  intros n i after Hc Hn Hi. subst n i after. cbv beta.
  destruct (enableContentNavigation_index contentElement h) as [Hcur Hitems].
  set (h1 := (enableContentNavigation contentElement h).2) in *.
  assert (Hr : 0 <= currentFocus h1 < js_length (navItems h1)).
  { rewrite Hcur, Hitems. exact Hi. }
  destruct (setFocus_in_range _ _ Hr) as [Hs _].
  pose proof (setFocus_length (currentFocus h1) h1) as Hl.
  set (hs := with_isNavigating true (setFocus (currentFocus h1) h1)).
  assert (Hsc : currentFocus hs = currentFocus h).
  { subst hs. simpl. rewrite Hs. exact Hcur. }
  assert (Hsl : js_length (navItems hs) = js_length (navItems h)).
  { subst hs. simpl. rewrite Hl, Hitems. reflexivity. }
  rewrite dispatch_left_handler, dispatch_right_handler. fold hs.
  rewrite (navigateLeft_index hs), (navigateRight_index hs)
    by (rewrite Hsc, Hsl; exact Hi).
  rewrite Hsc, Hsl.
  repeat split.
  - destruct (decide (currentFocus h = 0)) as [H0|H0].
    + rewrite H0. replace (0 - 1 + js_length (navItems h))
        with (js_length (navItems h) - 1) by lia.
      rewrite Z.mod_small by lia. lia.
    + replace (currentFocus h - 1 + js_length (navItems h))
        with (currentFocus h - 1 + 1 * js_length (navItems h)) by lia.
      rewrite Z_mod_plus_full, Z.mod_small by lia. lia.
  - destruct (decide (currentFocus h + 1 < js_length (navItems h))).
    + rewrite Z.mod_small by lia. lia.
    + replace (currentFocus h + 1) with (js_length (navItems h)) by lia.
      rewrite Z_mod_same_full. lia.
Qed.

Lemma content_scope_exit_moves_parent_index_witness :
  currentFocus Sample.noHome = 2
  /\ currentFocus
       (Delivery.d_handler
          (Delivery.dispatchContentKey false SamplePlatform.bareWindow false
             (keydown 37)
             {| focusableElements := [20%nat; 21%nat]; contentFocus := 0 |}
             (enableContentNavigation (Some [20%nat; 21%nat])
                Sample.noHome).2)) = 1
  /\ currentFocus
       (Delivery.d_handler
          (Delivery.dispatchContentKey false SamplePlatform.bareWindow false
             (keydown 39)
             {| focusableElements := [20%nat; 21%nat]; contentFocus := 0 |}
             (enableContentNavigation (Some [20%nat; 21%nat])
                Sample.noHome).2)) = 0.
Proof.
  pose proof (content_scope_exit_moves_parent_index false
                SamplePlatform.bareWindow false (Some [20%nat; 21%nat])
                Sample.noHome
                {| focusableElements := [20%nat; 21%nat]; contentFocus := 0 |}
                eq_refl ltac:(vm_compute; discriminate)
                ltac:(vm_compute; intuition discriminate))
    as (Hl & _ & Hr & _).
  split; [reflexivity|]. split; [exact Hl | exact Hr].
Defined.

End ScopeExitDelivery.
